(** * The unsaved-changes guard and its confirmation coordinator

    A shallow embedding of
      - [src/utils/confirm/confirm.types.ts]    (ConfirmOptions, ConfirmContext),
      - [src/utils/confirm/confirm.tsx]         (the Confirm dialog component),
      - [src/utils/confirm/confirm.provider.tsx] (ConfirmProvider),
      - [src/utils/confirm/confirm.hooks.ts]    (useConfirm),
      - [src/hooks/usePrompt.ts]                (usePrompt),
    with the state of the page made explicit: every handler of the program
    is a function [World -> World].

    React commits a state update before the next event is dispatched, so
    one event (a click, a call of [show], a report of the router) is one
    step on the world; promise reactions run as microtasks when the
    handler of the event has returned. *)

From Stdlib Require Import ssreflect.
Set Warnings "-rewrite-rw,-deprecated-since-9.3".
From stdpp Require Import base option list strings gmap.

(** ** Data model *)

(** [confirm.types.ts] line 11: [T | null]. *)
Definition Nullable (T : Type) : Type := option T.

(** [confirm.types.ts] line 8. *)
Inductive Severity : Type := success | error | warning | info.

#[global] Instance Severity_eq_dec : EqDecision Severity.
Proof. solve_decision. Defined.

(** [confirm.types.ts] lines 1-9.  Every field is optional.  The record is
    parametric in what a [() => void] is at the place where the options
    are used: a function supplied by a consumer, a closure built by
    [usePrompt], or a handler of the provider. *)
Record ConfirmOptions (F : Type) : Type := mkOptions {
  title : option string;
  subtitle : option string;
  confirmText : option string;
  cancelText : option string;
  onConfirm : option F;
  onCancel : option F;
  type : option Severity
}.
Arguments mkOptions {F}.
Arguments title {F}.
Arguments subtitle {F}.
Arguments confirmText {F}.
Arguments cancelText {F}.
Arguments onConfirm {F}.
Arguments onCancel {F}.
Arguments type {F}.

#[global] Instance ConfirmOptions_eq_dec {F : Type} `{EqDecision F} :
  EqDecision (ConfirmOptions F).
Proof. solve_decision. Defined.

(** A function written by a consumer of the hooks.  It is opaque to this
    repository: all the model records of a call is that it happened. *)
Definition ExternFn : Type := nat.

(** Promises are cells of the world, named by their index. *)
Definition PromiseId : Type := nat.

(** The functions that can be stored in a confirmation request: a function
    of a consumer, or one of the two closures of [usePrompt.confirm]
    (lines 31-34 and 35-38), which capture the [resolve] of their promise
    and the callback configured on the guard. *)
Inductive Callback : Type :=
| Extern (f : ExternFn)
| PromptOnConfirm (resolve_of : PromiseId) (user : option ExternFn)
| PromptOnCancel (resolve_of : PromiseId) (user : option ExternFn).

#[global] Instance Callback_eq_dec : EqDecision Callback.
Proof. solve_decision. Defined.

(** The only [.then] callback of the program ([usePrompt], lines 55-58):
    [(result) => { if (result) blocker.proceed(); else blocker.reset(); }]. *)
Inductive Reaction : Type := BlockerDecision.

(** A promise: settled with a boolean or pending, with the reactions
    registered while it was pending. *)
Record PromiseCell : Type := mkCell {
  settled : option bool;
  reactions : list Reaction
}.

(** Modelled from the spec: the routing-layer collaborator (section 6), a
    library outside the repository.  It holds the current location and a
    blocker that is either idle or holds a blocked transition; [proceed]
    completes the transition and [reset] drops it. *)
Inductive BlockerState : Type :=
| unblocked
| blocked (target : string).

Record Router : Type := mkRouter {
  location : string;
  blocker : BlockerState
}.

(** The function assigned to [window.onbeforeunload] ([usePrompt], line
    64): [() => subtitle], a closure over the subtitle of its render. *)
Inductive UnloadHandler : Type := ReturnSubtitle (captured : string).

(** Ghost log of the calls made so far.  No definition reads it; it is
    what "is invoked" and "is never invoked" are stated on. *)
Inductive Event : Type :=
| EvShow (request : Nullable (ConfirmOptions Callback))
| EvCallback (f : ExternFn)
| EvProceed
| EvReset.

#[global] Instance Event_eq_dec : EqDecision Event.
Proof. solve_decision. Defined.

(** The state of the page. *)
Record World : Type := mkWorld {
  confirm : Nullable (ConfirmOptions Callback); (* provider, line 19 *)
  open : bool;                                  (* provider, line 21 *)
  promises : list PromiseCell;
  microtasks : list (Reaction * bool);
  router : Router;
  onbeforeunload : Nullable UnloadHandler;      (* window.onbeforeunload *)
  trace : list Event
}.

Definition setConfirm (c : Nullable (ConfirmOptions Callback)) (w : World) : World :=
  mkWorld c (open w) (promises w) (microtasks w) (router w) (onbeforeunload w) (trace w).

Definition toggle (b : bool) (w : World) : World :=
  mkWorld (confirm w) b (promises w) (microtasks w) (router w) (onbeforeunload w) (trace w).

Definition set_promises (ps : list PromiseCell) (w : World) : World :=
  mkWorld (confirm w) (open w) ps (microtasks w) (router w) (onbeforeunload w) (trace w).

Definition set_microtasks (q : list (Reaction * bool)) (w : World) : World :=
  mkWorld (confirm w) (open w) (promises w) q (router w) (onbeforeunload w) (trace w).

Definition set_router (r : Router) (w : World) : World :=
  mkWorld (confirm w) (open w) (promises w) (microtasks w) r (onbeforeunload w) (trace w).

Definition set_onbeforeunload (h : Nullable UnloadHandler) (w : World) : World :=
  mkWorld (confirm w) (open w) (promises w) (microtasks w) (router w) h (trace w).

Definition emit (e : Event) (w : World) : World :=
  mkWorld (confirm w) (open w) (promises w) (microtasks w) (router w)
          (onbeforeunload w) (trace w ++ [e]).

(** The page before anything happened, at location [here]. *)
Definition initial (here : string) : World :=
  mkWorld None false [] [] (mkRouter here unblocked) None [].

(** ** Promises *)

(** [new Promise(...)]: a fresh pending cell. *)
Definition new_promise (w : World) : PromiseId * World :=
  (length (promises w), set_promises (promises w ++ [mkCell None []]) w).

(** [Promise.resolve(v)]: a fresh cell that is already settled. *)
Definition Promise_resolve (v : bool) (w : World) : PromiseId * World :=
  (length (promises w), set_promises (promises w ++ [mkCell (Some v) []]) w).

(** The [resolve] function of promise [p]: the first call settles the
    promise and queues its reactions; later calls do nothing. *)
Definition resolve (p : PromiseId) (v : bool) (w : World) : World :=
  match promises w !! p with
  | Some (mkCell None rs) =>
      set_microtasks (microtasks w ++ map (fun r => (r, v)) rs)
        (set_promises (<[p := mkCell (Some v) []]> (promises w)) w)
  | _ => w
  end.

(** [p.then(r)]: on a settled promise the reaction is queued at once, on a
    pending one it is stored. *)
Definition then_ (p : PromiseId) (r : Reaction) (w : World) : World :=
  match promises w !! p with
  | Some (mkCell (Some v) _) => set_microtasks (microtasks w ++ [(r, v)]) w
  | Some (mkCell None rs) =>
      set_promises (<[p := mkCell None (rs ++ [r])]> (promises w)) w
  | None => w
  end.

(** ** The router's control handles *)

Definition proceed (w : World) : World :=
  let w1 := emit EvProceed w in
  match blocker (router w1) with
  | blocked target => set_router (mkRouter target unblocked) w1
  | unblocked => w1
  end.

Definition reset (w : World) : World :=
  let w1 := emit EvReset w in
  set_router (mkRouter (location (router w1)) unblocked) w1.

(** The router reports a blocked transition to [target]. *)
Definition report_blocked (target : string) (w : World) : World :=
  set_router (mkRouter (location (router w)) (blocked target)) w.

Definition run_reaction (r : Reaction) (result : bool) (w : World) : World :=
  match r with
  | BlockerDecision => if result then proceed w else reset w
  end.

(** The microtask checkpoint after a handler has returned.  No reaction
    of the program queues another one, so one pass empties the queue. *)
Definition run_queue (q : list (Reaction * bool)) (w : World) : World :=
  foldl (fun acc t => run_reaction t.1 t.2 acc) w q.

Definition drain (w : World) : World := run_queue (microtasks w) (set_microtasks [] w).

(** ** Calling the stored functions *)

Definition call_extern (f : ExternFn) (w : World) : World := emit (EvCallback f) w.

(** [f?.()] for a function of a consumer. *)
Definition call_opt_extern (f : option ExternFn) (w : World) : World :=
  match f with
  | Some g => call_extern g w
  | None => w
  end.

Definition run_callback (c : Callback) (w : World) : World :=
  match c with
  | Extern f => call_extern f w
  | PromptOnConfirm p user => call_opt_extern user (resolve p true w)   (* lines 32-33 *)
  | PromptOnCancel p user => call_opt_extern user (resolve p false w)   (* lines 36-37 *)
  end.

(** [c?.()] for a stored function. *)
Definition call_opt (c : option Callback) (w : World) : World :=
  match c with
  | Some f => run_callback f w
  | None => w
  end.

(** ** The Confirm dialog ([confirm.tsx]) *)

(** The two handlers the provider passes to the dialog. *)
Inductive Handler : Type := ProviderOnConfirm | ProviderOnCancel.

Record ColorValues : Type := mkColors {
  bgColor : string;
  textColor : string;
  iconColor : string
}.

(** [confirm.tsx] lines 129-150. *)
Definition colorMap (t : Severity) : ColorValues :=
  match t with
  | error => mkColors "#FDEDED" "#5F2120" "#D92D20"
  | info => mkColors "#EDF7ED" "#026AA2" "#026AA2"
  | success => mkColors "#EDF7ED" "#1E4620" "#2E7D32"
  | warning => mkColors "#FFF4E5" "#663C00" "#ED6C02"
  end.

Inductive Icon : Type := ErrorIcon | InfoIcon | SuccessIcon | WarningIcon.

(** [confirm.tsx] lines 152-157. *)
Definition iconMap (t : Severity) : Icon :=
  match t with
  | error => ErrorIcon
  | info => InfoIcon
  | success => SuccessIcon
  | warning => WarningIcon
  end.

(** What the dialog renders: whether it is displayed ([flex] or [hidden]),
    its texts and colours, and the [onClick] of its three controls. *)
Record DialogView : Type := mkView {
  visible : bool;
  background : string;
  icon : Icon;
  title_label : option string;
  subtitle_label : option string;
  cancelButton_text : option string;
  confirmButton_text : option string;
  closeIcon_onClick : option Handler;
  cancelButton_onClick : option Handler;
  confirmButton_onClick : option Handler
}.

(** [confirm.tsx] lines 159-227: [Props = ConfirmOptions & { open }],
    with [type = 'warning'] when the property is undefined. *)
Definition Confirm (props : ConfirmOptions Handler) (open_ : bool) : DialogView :=
  let type_ := default warning (type props) in
  mkView open_
         (bgColor (colorMap type_))
         (iconMap type_)
         (title props)
         (subtitle props)
         (cancelText props)
         (confirmText props)
         (onCancel props)          (* CloseIcon, line 192 *)
         (onCancel props)          (* cancel button, line 206 *)
         (onConfirm props).        (* confirm button, line 215 *)

(** ** ConfirmProvider ([confirm.provider.tsx]) *)

Module ConfirmProvider.

(** Lines 23-29. *)
Definition show (confirmOptions : Nullable (ConfirmOptions Callback)) (w : World) : World :=
  toggle true (setConfirm confirmOptions (emit (EvShow confirmOptions) w)).

(** Lines 31-34: [confirm?.onConfirm?.(); toggle(false);]. *)
Definition onConfirm (w : World) : World :=
  toggle false (call_opt (confirm w ≫= onConfirm) w).

(** Lines 36-39: [confirm?.onCancel?.(); toggle(false);]. *)
Definition onCancel (w : World) : World :=
  toggle false (call_opt (confirm w ≫= onCancel) w).

(** Lines 45-51: the properties handed to the dialog,
    [type="warning" {...confirm} onCancel onConfirm open]: the fields of
    the stored request over the literal type, then the two handlers of
    the provider. *)
Definition dialog_props (w : World) : ConfirmOptions Handler :=
  mkOptions (confirm w ≫= title)
            (confirm w ≫= subtitle)
            (confirm w ≫= confirmText)
            (confirm w ≫= cancelText)
            (Some ProviderOnConfirm)
            (Some ProviderOnCancel)
            (match confirm w ≫= type with
             | Some t => Some t
             | None => Some warning
             end).

Definition render (w : World) : DialogView := Confirm (dialog_props w) (open w).

Definition handle (h : Handler) (w : World) : World :=
  match h with
  | ProviderOnConfirm => onConfirm w
  | ProviderOnCancel => onCancel w
  end.

End ConfirmProvider.

(** The three controls of the dialog ([confirm.tsx], lines 192, 206 and
    215). *)
Inductive Control : Type := confirmButton | cancelButton | closeIcon.

Definition onClick (c : Control) (v : DialogView) : option Handler :=
  match c with
  | confirmButton => confirmButton_onClick v
  | cancelButton => cancelButton_onClick v
  | closeIcon => closeIcon_onClick v
  end.

(** A click of the user.  A dialog that is not displayed (class [hidden])
    cannot be clicked; otherwise the [onClick] of the control runs. *)
Definition click (c : Control) (w : World) : World :=
  let v := ConfirmProvider.render w in
  if visible v then
    match onClick c v with
    | Some h => ConfirmProvider.handle h w
    | None => w
    end
  else w.

(** ** useConfirm ([confirm.hooks.ts]) *)

(** [confirm.types.ts] lines 13-15. *)
Record ConfirmContext : Type := mkContext {
  show : Nullable (ConfirmOptions Callback) -> World -> World
}.

(** [new Error(message)], thrown. *)
Inductive Error : Type := mkError (message : string).

Definition Result (T : Type) : Type := Error + T.

(** The components above a hook in the composition tree, nearest first:
    a ConfirmProvider, the RouterProvider of a data router ([App.tsx],
    lines 7-10), or any other component. *)
Inductive Component : Type :=
| ConfirmProviderNode
| RouterProviderNode
| OtherNode (name : string).

#[global] Instance Component_eq_dec : EqDecision Component.
Proof. solve_decision. Defined.

(** [useContext(ConfirmCtx)]: the value of the nearest provider, or the
    default of [createContext], which is [null] (provider, line 12).  The
    value of a provider is [{ show }] (provider, line 41). *)
Fixpoint useContext (ancestors : list Component) : Nullable ConfirmContext :=
  match ancestors with
  | [] => None
  | ConfirmProviderNode :: _ => Some (mkContext ConfirmProvider.show)
  | RouterProviderNode :: above | OtherNode _ :: above => useContext above
  end.

(** [confirm.hooks.ts] lines 5-13. *)
Definition useConfirm (ancestors : list Component) : Result ConfirmContext :=
  match useContext ancestors with
  | None => inl (mkError "useConfirm must be used within a ConfirmProvider")
  | Some context => inr context
  end.

(** [useBlocker(shouldBlock)] of the routing library, as far as a render
    of the hook goes: below a data router it gives the blocker, armed as
    asked (the state of the blocker is the router's, in the world);
    anywhere else it throws.  The error it throws is the library's and is
    taken as a parameter. *)
Definition useBlocker (library_error : Error) (ancestors : list Component)
    (shouldBlock : bool) : Result bool :=
  if bool_decide (RouterProviderNode ∈ ancestors) then inr shouldBlock
  else inl library_error.

(** ** usePrompt ([hooks/usePrompt.ts]) *)

(** The argument of the hook: [ConfirmOptions & { isDirty?: boolean }],
    the callbacks being functions of the consumer. *)
Record PromptProps : Type := mkProps {
  isDirty : option bool;
  options : ConfirmOptions ExternFn
}.

Module usePrompt.

(** Lines 8-15: the bindings of the destructured argument, with their
    defaults. *)
Definition isDirty_ (props : PromptProps) : bool := default false (isDirty props).
Definition title_ (props : PromptProps) : string :=
  default "You have unsaved changes!" (title (options props)).
Definition subtitle_ (props : PromptProps) : string :=
  default "Are you sure you want to leave?" (subtitle (options props)).
Definition confirmText_ (props : PromptProps) : string :=
  default "Leave" (confirmText (options props)).
Definition cancelText_ (props : PromptProps) : string :=
  default "Stay" (cancelText (options props)).
Definition type_ (props : PromptProps) : Severity :=
  default warning (type (options props)).

(** Lines 25-39: the request built for promise [p]. *)
Definition request (props : PromptProps) (p : PromiseId) : ConfirmOptions Callback :=
  mkOptions (Some (title_ props))
            (Some (subtitle_ props))
            (Some (confirmText_ props))
            (Some (cancelText_ props))
            (Some (PromptOnConfirm p (onConfirm (options props))))
            (Some (PromptOnCancel p (onCancel (options props))))
            (Some (type_ props)).

(** Lines 21-40.  The executor of [new Promise] runs at once. *)
Definition confirm (context : ConfirmContext) (props : PromptProps) (w : World)
  : PromiseId * World :=
  if negb (isDirty_ props) then Promise_resolve true w
  else
    let '(p, w1) := new_promise w in
    (p, show context (Some (request props p)) w1).

(** Lines 53-60, the effect on the blocker. *)
Definition blocker_effect (context : ConfirmContext) (props : PromptProps) (w : World)
  : World :=
  match blocker (router w) with
  | blocked _ =>
      let '(p, w1) := confirm context props w in
      then_ p BlockerDecision w1
  | unblocked => w
  end.

(** Lines 62-66, the effect on [window.onbeforeunload]. *)
Definition unload_effect (props : PromptProps) (w : World) : World :=
  if isDirty_ props then
    set_onbeforeunload (Some (ReturnSubtitle (subtitle_ props))) w
  else w.

(** Lines 67-69, its cleanup. *)
Definition unload_cleanup (w : World) : World := set_onbeforeunload None w.

(** What a render of the hook gives: [useBlocker] may throw (line 17),
    then [useConfirm] (line 19); otherwise the hook is bound to the
    context it found. *)
Record Hook : Type := mkHook {
  hook_confirm : World -> PromiseId * World;
  hook_blocker_effect : World -> World;
  hook_unload_effect : World -> World;
  hook_unload_cleanup : World -> World
}.

Definition render (library_error : Error) (ancestors : list Component)
    (props : PromptProps) : Result Hook :=
  match useBlocker library_error ancestors (isDirty_ props) with
  | inl e => inl e
  | inr _ =>
      match useConfirm ancestors with
      | inl e => inl e
      | inr context =>
          inr (mkHook (confirm context props)
                      (blocker_effect context props)
                      (unload_effect props)
                      unload_cleanup)
      end
  end.

End usePrompt.

(** Calling the handler stored in [window.onbeforeunload]. *)
Definition call_unload (h : UnloadHandler) : string :=
  match h with
  | ReturnSubtitle s => s
  end.

(** What the browser gets when the page is about to unload: the string of
    the installed handler, or nothing when the slot is [null]. *)
Definition fire_beforeunload (w : World) : option string :=
  call_unload <$> onbeforeunload w.

(** ** The coordinator as a state machine *)

(** The three operations of the coordinator (spec, section 4.1). *)
Inductive Op : Type :=
| OpShow (request : Nullable (ConfirmOptions Callback))
| OpResolveConfirm
| OpResolveCancel.

Definition run_op (w : World) (op : Op) : World :=
  match op with
  | OpShow r => ConfirmProvider.show r w
  | OpResolveConfirm => ConfirmProvider.onConfirm w
  | OpResolveCancel => ConfirmProvider.onCancel w
  end.

Definition run_ops (ops : list Op) (w : World) : World := foldl run_op w ops.

(** The requests the coordinator holds: the content of its one slot. *)
Definition stored_requests (w : World) : list (ConfirmOptions Callback) :=
  match confirm w with
  | Some r => [r]
  | None => []
  end.

(** The argument of the most recent [show] of a sequence, [null] when
    there is none. *)
Definition last_shown (ops : list Op) : Nullable (ConfirmOptions Callback) :=
  foldl (fun acc op => match op with OpShow r => r | _ => acc end) None ops.

(** Whether the most recent operation of a sequence is a [show]. *)
Definition ends_with_show (ops : list Op) : bool :=
  foldl (fun _ op => match op with OpShow _ => true | _ => false end) false ops.

(** ** The page as a whole: events and steps *)

(** The context every hook below a ConfirmProvider gets. *)
Definition provided : ConfirmContext := mkContext ConfirmProvider.show.

(** A request of a consumer, as the coordinator stores it. *)
Definition consumer_request (r : ConfirmOptions ExternFn) : ConfirmOptions Callback :=
  mkOptions (title r) (subtitle r) (confirmText r) (cancelText r)
            (Extern <$> onConfirm r) (Extern <$> onCancel r) (type r).

Inductive Action : Type :=
| UserClick (c : Control)
| GuardConfirm (props : PromptProps)
| RouterBlocks (props : PromptProps) (target : string)
| ConsumerShow (request : Nullable (ConfirmOptions ExternFn)).

(** The task of an event, run to completion. *)
Definition dispatch (a : Action) (w : World) : World :=
  match a with
  | UserClick c => click c w
  | GuardConfirm props => (usePrompt.confirm provided props w).2
  | RouterBlocks props target =>
      usePrompt.blocker_effect provided props (report_blocked target w)
  | ConsumerShow r => show provided (consumer_request <$> r) w
  end.

(** One turn of the event loop: the task, then the microtask checkpoint. *)
Definition step (w : World) (a : Action) : World := drain (dispatch a w).

Definition run (acts : list Action) (w : World) : World := foldl step w acts.

(** The trace events of calling an optional function of a consumer. *)
Definition calls (f : option ExternFn) : list Event :=
  match f with
  | Some g => [EvCallback g]
  | None => []
  end.

(** The functions of consumers an action hands to the coordinator. *)
Definition externs_of (a : Action) : list ExternFn :=
  match a with
  | UserClick _ => []
  | GuardConfirm props | RouterBlocks props _ =>
      option_list (onConfirm (options props)) ++ option_list (onCancel (options props))
  | ConsumerShow r =>
      match r with
      | Some o => option_list (onConfirm o) ++ option_list (onCancel o)
      | None => []
      end
  end.

(** The functions of consumers a stored function may end up calling. *)
Definition extern_of_callback (c : Callback) : option ExternFn :=
  match c with
  | Extern f => Some f
  | PromptOnConfirm _ user | PromptOnCancel _ user => user
  end.

(** The promise a stored function resolves, when it is a closure of
    [usePrompt]. *)
Definition promise_of_callback (c : Callback) : option PromiseId :=
  match c with
  | Extern _ => None
  | PromptOnConfirm p _ | PromptOnCancel p _ => Some p
  end.

(** ** The before-unload effect over the life of a guard *)

(** The dependencies of the effect ([usePrompt], line 70). *)
Definition unload_deps (props : PromptProps) : bool * string :=
  (usePrompt.isDirty_ props, usePrompt.subtitle_ props).

Inductive Lifecycle : Type :=
| Render (props : PromptProps)
| Unmount.

(** React's schedule for an effect with dependencies: it runs after the
    first render; after a later render it runs again, cleanup first, when
    a dependency changed; the cleanup runs at unmount.  The state of an
    instance is the dependencies of its last run, [None] when it is not
    mounted. *)
Definition commit (st : option (bool * string) * World) (ev : Lifecycle)
  : option (bool * string) * World :=
  let '(mounted, w) := st in
  match ev, mounted with
  | Render props, None => (Some (unload_deps props), usePrompt.unload_effect props w)
  | Render props, Some deps =>
      if bool_decide (deps = unload_deps props) then (mounted, w)
      else (Some (unload_deps props),
            usePrompt.unload_effect props (usePrompt.unload_cleanup w))
  | Unmount, Some _ => (None, usePrompt.unload_cleanup w)
  | Unmount, None => (None, w)
  end.

Definition lifecycle (evs : list Lifecycle) (w : World) : option (bool * string) * World :=
  foldl commit (None, w) evs.

(** The event of a decision of the blocker's reaction. *)
Definition decision (t : Reaction * bool) : Event := if t.2 then EvProceed else EvReset.

(** How often the function [f] of a consumer is called in a trace. *)
Definition invocations (f : ExternFn) (tr : list Event) : nat :=
  length (filter (λ e, e = EvCallback f) tr).

(** The calls made between an earlier world and a later one. *)
Definition since (before after : World) : list Event :=
  drop (length (trace before)) (trace after).

(** The functions of a request, and those the coordinator holds. *)
Definition callbacks_of (r : Nullable (ConfirmOptions Callback)) : list Callback :=
  match r with
  | Some o => option_list (onConfirm o) ++ option_list (onCancel o)
  | None => []
  end.

Definition stored_callbacks (w : World) : list Callback := callbacks_of (confirm w).

(** Whether an action calls [show]. *)
Definition shows (a : Action) : bool :=
  match a with
  | UserClick _ => false
  | GuardConfirm props | RouterBlocks props _ => usePrompt.isDirty_ props
  | ConsumerShow _ => true
  end.

(** Whether an action is a [confirm()] of a guard, which has a promise. *)
Definition of_guard (a : Action) : bool :=
  match a with
  | GuardConfirm _ | RouterBlocks _ _ => true
  | UserClick _ | ConsumerShow _ => false
  end.

(** The request an action hands to [show], [p] being the promise a guard
    creates for it. *)
Definition request_of (a : Action) (p : PromiseId) : Nullable (ConfirmOptions Callback) :=
  match a with
  | GuardConfirm props | RouterBlocks props _ => Some (usePrompt.request props p)
  | ConsumerShow r => consumer_request <$> r
  | UserClick _ => None
  end.

(** A promise nobody can settle any more: it is pending and no stored
    function holds its [resolve]. *)
Definition abandoned (p : PromiseId) (w : World) : Prop :=
  (∃ rs, promises w !! p = Some (mkCell None rs)) ∧
  ∀ c, c ∈ stored_callbacks w → promise_of_callback c ≠ Some p.

(** Every function of a consumer reachable from the stored request is
    one of [allowed]. *)
Definition only_calls (allowed : list ExternFn) (w : World) : Prop :=
  ∀ c f, c ∈ stored_callbacks w → extern_of_callback c = Some f → f ∈ allowed.

(** The content of the slot a single guard accounts for, given the
    dependencies of the last run of its effect. *)
Definition slot_of (mounted : option (bool * string)) : Nullable UnloadHandler :=
  match mounted with
  | Some (true, text) => Some (ReturnSubtitle text)
  | Some (false, _) | None => None
  end.

(** ** The contact page ([pages/contact/index.tsx]) *)

(** Lines 18-20. *)
Inductive FormAction : Type :=
| UPDATE_FIELD (field value : string)
| RESET_FORM.

(** Lines 22-26.  The state of the form is a JS object read and written
    by property name: a finite map from names to strings. *)
Definition initialState : gmap string string :=
  <["name" := ""]> (<["email" := ""]> (<["message" := ""]> ∅)).

(** Lines 28-37: [{ ...state, [action.field]: action.value }] writes one
    property, whatever its name. *)
Definition formReducer (state : gmap string string) (action : FormAction)
  : gmap string string :=
  match action with
  | UPDATE_FIELD field value => <[field := value]> state
  | RESET_FORM => initialState
  end.

(** Truthiness of a property read: [undefined] and the empty string are
    falsy, every other string is truthy. *)
Definition truthy (v : option string) : bool :=
  match v with
  | Some s => negb (String.eqb s "")
  | None => false
  end.

(** [a && b]: [a] when it is falsy, else [b]. *)
Definition js_and (a b : option string) : option string := if truthy a then b else a.

(** Line 64. *)
Definition canSubmit (state : gmap string string) : option string :=
  js_and (js_and (state !! "name") (state !! "email")) (state !! "message").

(** Line 103: [disabled={!canSubmit}]. *)
Definition submit_disabled (state : gmap string string) : bool :=
  negb (truthy (canSubmit state)).

(** The three controls of the form (lines 71-99) and their [name]. *)
Inductive Input : Type := name_input | email_input | message_input.

Definition input_name (i : Input) : string :=
  match i with
  | name_input => "name"
  | email_input => "email"
  | message_input => "message"
  end.

Module ContactPage.

(** The state of the component (lines 40-42), and what it has shown with
    [alert] so far. *)
Record Page : Type := mkPage {
  state : gmap string string;
  isDirty : bool;
  alerts : list (gmap string string)
}.

Definition mounted : Page := mkPage initialState false [].

(** Lines 44-51, on a target with the given [name] and [value]. *)
Definition handleInputChange (name value : string) (pg : Page) : Page :=
  mkPage (formReducer (state pg) (UPDATE_FIELD name value)) true (alerts pg).

(** Lines 53-58: the alert shows the state of the render, then the flag
    is cleared and the form reset. *)
Definition handleSubmit (pg : Page) : Page :=
  mkPage (formReducer (state pg) RESET_FORM) false (alerts pg ++ [state pg]).

(** Lines 60-62: [usePrompt({ isDirty })]. *)
Definition prompt_props (pg : Page) : PromptProps :=
  mkProps (Some (isDirty pg)) (mkOptions None None None None None None None).

(** What the user can do on the page: change one of the three controls,
    or submit the form, which a disabled submit button prevents. *)
Inductive Event : Type :=
| Change (i : Input) (value : string)
| Submit.

Definition on_event (pg : Page) (ev : Event) : Page :=
  match ev with
  | Change i value => handleInputChange (input_name i) value pg
  | Submit => if submit_disabled (state pg) then pg else handleSubmit pg
  end.

Definition run (evs : list Event) (pg : Page) : Page := foldl on_event pg evs.

(** The page with its guard: after an event the component renders again
    and the effects of [usePrompt] are committed for the new flag. *)
Definition mount (w : World) : Page * (option (bool * string) * World) :=
  (mounted, commit (None, w) (Render (prompt_props mounted))).

Definition live_step (st : Page * (option (bool * string) * World)) (ev : Event)
  : Page * (option (bool * string) * World) :=
  let pg := on_event st.1 ev in
  (pg, commit st.2 (Render (prompt_props pg))).

Definition live (evs : list Event) (w : World) : Page * (option (bool * string) * World) :=
  foldl live_step (mount w) evs.

End ContactPage.

(** ** The composition root ([main.tsx], [App.tsx], [layout/main]) *)

(** The ancestors of a page of the application, nearest first: the
    components [inside] the router (the layout, ...), the RouterProvider
    that [App] renders ([App.tsx], lines 5-12), the components [around]
    it ([App], ...), and the ConfirmProvider that [main.tsx] (lines 8-12)
    puts around [App]. *)
Definition page_ancestors (inside around : list string) : list Component :=
  (OtherNode <$> inside) ++ RouterProviderNode :: (OtherNode <$> around)
    ++ [ConfirmProviderNode].

(** The ancestors of a component of the application that is not inside
    the router, [App] itself for one. *)
Definition app_ancestors (around : list string) : list Component :=
  (OtherNode <$> around) ++ [ConfirmProviderNode].

(** Whether a trace event is a call of a function of a consumer. *)
Definition is_callback_event (e : Event) : bool :=
  match e with
  | EvCallback _ => true
  | EvShow _ | EvProceed | EvReset => false
  end.

(** Whether a trace event is a decision given to the router. *)
Definition is_decision_event (e : Event) : bool :=
  match e with
  | EvProceed | EvReset => true
  | EvShow _ | EvCallback _ => false
  end.

(** Whether a trace event is a call of [show]. *)
Definition is_show_event (e : Event) : bool :=
  match e with
  | EvShow _ => true
  | EvCallback _ | EvProceed | EvReset => false
  end.

(** The header and button colours of the dialog ([confirm.tsx], lines
    184-185, 198 and 217), beside the background and the icon of the
    view. *)
Definition header_color (props : ConfirmOptions Handler) : string :=
  textColor (colorMap (default warning (type props))).

Definition confirmButton_background (props : ConfirmOptions Handler) : string :=
  iconColor (colorMap (default warning (type props))).

(** Whether an action of the form writes the property [field]: an update
    of that property, or a reset. *)
Definition writes (field : string) (action : FormAction) : bool :=
  match action with
  | UPDATE_FIELD f _ => bool_decide (f = field)
  | RESET_FORM => true
  end.

(** A form whose three properties are present. *)
Definition well_formed (state : gmap string string) : Prop :=
  is_Some (state !! "name") ∧ is_Some (state !! "email") ∧ is_Some (state !! "message").

(** A form whose three properties are non-empty strings. *)
Definition complete (state : gmap string string) : Prop :=
  ∃ n e m, state !! "name" = Some n ∧ state !! "email" = Some e ∧
           state !! "message" = Some m ∧ n ≠ "" ∧ e ≠ "" ∧ m ≠ "".

(** * Properties *)

(** ** What calling a stored function leaves alone *)

Section Frames.

Lemma resolve_confirm p v w : confirm (resolve p v w) = confirm w.
Proof. unfold resolve. by destruct (promises w !! p) as [[[b|] rs]|]. Qed.

Lemma resolve_open p v w : open (resolve p v w) = open w.
Proof. unfold resolve. by destruct (promises w !! p) as [[[b|] rs]|]. Qed.

Lemma resolve_trace p v w : trace (resolve p v w) = trace w.
Proof. unfold resolve. by destruct (promises w !! p) as [[[b|] rs]|]. Qed.

Lemma resolve_router p v w : router (resolve p v w) = router w.
Proof. unfold resolve. by destruct (promises w !! p) as [[[b|] rs]|]. Qed.

Lemma resolve_onbeforeunload p v w : onbeforeunload (resolve p v w) = onbeforeunload w.
Proof. unfold resolve. by destruct (promises w !! p) as [[[b|] rs]|]. Qed.

Lemma call_opt_extern_trace f w : trace (call_opt_extern f w) = trace w ++ calls f.
Proof. destruct f; simpl; [done | by rewrite app_nil_r]. Qed.

Lemma call_opt_confirm c w : confirm (call_opt c w) = confirm w.
Proof. destruct c as [[f|p [f|]|p [f|]]|]; simpl; by rewrite ?resolve_confirm. Qed.

Lemma call_opt_open c w : open (call_opt c w) = open w.
Proof. destruct c as [[f|p [f|]|p [f|]]|]; simpl; by rewrite ?resolve_open. Qed.

Lemma call_opt_router c w : router (call_opt c w) = router w.
Proof. destruct c as [[f|p [f|]|p [f|]]|]; simpl; by rewrite ?resolve_router. Qed.

Lemma call_opt_onbeforeunload c w : onbeforeunload (call_opt c w) = onbeforeunload w.
Proof.
  destruct c as [[f|p [f|]|p [f|]]|]; simpl; by rewrite ?resolve_onbeforeunload.
Qed.

Lemma call_opt_trace c w :
  trace (call_opt c w) = trace w ++ calls (c ≫= extern_of_callback).
Proof.
  destruct c as [[f|p [f|]|p [f|]]|]; simpl;
    rewrite ?resolve_trace ?app_nil_r; done.
Qed.

End Frames.

(** ** The coordinator *)

Lemma run_ops_snoc ops op w : run_ops (ops ++ [op]) w = run_op (run_ops ops w) op.
Proof. unfold run_ops. by rewrite foldl_app. Qed.

Lemma run_op_open w op :
  open (run_op w op) = match op with OpShow _ => true | _ => false end.
Proof. by destruct op. Qed.

Lemma run_op_confirm w op :
  confirm (run_op w op) = match op with OpShow r => r | _ => confirm w end.
Proof. destruct op; simpl; [done | apply call_opt_confirm ..]. Qed.

Lemma stored_requests_le_1 w : length (stored_requests w) ≤ 1.
Proof. unfold stored_requests. destruct (confirm w); simpl; lia. Qed.

Lemma stored_requests_one w : length (stored_requests w) = 1 ↔ confirm w ≠ None.
Proof. unfold stored_requests. destruct (confirm w); simpl; split; (done || lia). Qed.

(** C1, as stated, fails in both directions.  After [show(null)] the
    dialog is displayed and no request is stored; after a [show] of a
    request and its confirmation the dialog is hidden and the request is
    still stored. *)
Lemma C1_visibility_iff_one_request_fails :
  let request := mkOptions (Some "t") None None None None None None in
  let w1 := run_ops [OpShow None] (initial "/") in
  let w2 := run_ops [OpShow (Some request); OpResolveConfirm] (initial "/") in
  ¬ (open w1 = true ↔ length (stored_requests w1) = 1) ∧
  ¬ (open w2 = true ↔ length (stored_requests w2) = 1).
Proof.
  split; vm_compute; intros [H1 H2].
  - by specialize (H1 eq_refl).
  - by specialize (H2 eq_refl).
Qed.

(** C1 (amended): in every state reached from the initial one by [show],
    [resolveConfirm] and [resolveCancel], the dialog is displayed exactly
    when the most recent operation was a [show]; the one slot holds the
    argument of the most recent [show] (resolution does not clear it), so
    at most one request is stored; and while the dialog is displayed
    exactly one request is stored if and only if that [show] was given a
    request rather than [null]. *)
Theorem C1_visibility_and_stored_request (here : string) (ops : list Op) :
  let w := run_ops ops (initial here) in
  open w = ends_with_show ops ∧
  confirm w = last_shown ops ∧
  length (stored_requests w) ≤ 1 ∧
  (length (stored_requests w) = 1 ↔ last_shown ops ≠ None).
Proof.
  cbn zeta.
  assert (open (run_ops ops (initial here)) = ends_with_show ops
          ∧ confirm (run_ops ops (initial here)) = last_shown ops) as [Ho Hc].
  { induction ops as [|op ops IH] using rev_ind; [done|].
    destruct IH as [IHo IHc].
    rewrite run_ops_snoc run_op_open run_op_confirm.
    unfold ends_with_show, last_shown. rewrite !foldl_app. simpl.
    split; [done|]. destruct op; [done | apply IHc ..]. }
  split_and!; [done | done | apply stored_requests_le_1 |].
  by rewrite stored_requests_one Hc.
Qed.

(** C9: [show(null)] is accepted: it stores [null] and sets the
    visibility to true, and the dialog is rendered displayed, without
    title, subtitle or button texts, and with the warning severity; no
    request is stored. *)
Theorem C9_show_null (w : World) :
  let w' := ConfirmProvider.show None w in
  open w' = true ∧
  confirm w' = None ∧
  stored_requests w' = [] ∧
  ConfirmProvider.render w' =
    mkView true (bgColor (colorMap warning)) (iconMap warning)
           None None None None
           (Some ProviderOnCancel) (Some ProviderOnCancel) (Some ProviderOnConfirm) ∧
  trace w' = trace w ++ [EvShow None] ∧
  promises w' = promises w ∧ microtasks w' = microtasks w ∧
  router w' = router w ∧ onbeforeunload w' = onbeforeunload w.
Proof. done. Qed.

(** ** Promises and the microtask queue *)

Lemma lookup_fresh (ps : list PromiseCell) (c : PromiseCell) :
  (ps ++ [c]) !! length ps = Some c.
Proof. by apply list_lookup_middle. Qed.

Lemma insert_fresh (ps : list PromiseCell) (c d : PromiseCell) :
  <[length ps := d]> (ps ++ [c]) = ps ++ [d].
Proof. rewrite insert_app_r_alt; [lia|]. by rewrite Nat.sub_diag. Qed.

Lemma resolve_pending p v w rs :
  promises w !! p = Some (mkCell None rs) →
  resolve p v w =
    set_microtasks (microtasks w ++ map (λ r, (r, v)) rs)
      (set_promises (<[p := mkCell (Some v) []]> (promises w)) w).
Proof. intros H. by rewrite /resolve H. Qed.

Lemma resolve_lookup_ne p q v w : p ≠ q → promises (resolve p v w) !! q = promises w !! q.
Proof.
  intros Hne. rewrite /resolve.
  destruct (promises w !! p) as [[[b|] rs]|] eqn:E; try done.
  simpl. by rewrite list_lookup_insert_ne.
Qed.

Lemma resolve_length p v w : length (promises (resolve p v w)) = length (promises w).
Proof.
  rewrite /resolve. destruct (promises w !! p) as [[[b|] rs]|]; try done.
  simpl. by rewrite length_insert.
Qed.

Section Drain.

Lemma run_reaction_frame r b w :
  confirm (run_reaction r b w) = confirm w ∧
  open (run_reaction r b w) = open w ∧
  promises (run_reaction r b w) = promises w ∧
  microtasks (run_reaction r b w) = microtasks w ∧
  onbeforeunload (run_reaction r b w) = onbeforeunload w ∧
  trace (run_reaction r b w) = trace w ++ [decision (r, b)].
Proof.
  destruct r, b; rewrite /= /proceed /reset /=; [|done].
  by destruct (blocker (router w)).
Qed.

Lemma run_queue_frame q acc :
  confirm (run_queue q acc) = confirm acc ∧
  open (run_queue q acc) = open acc ∧
  promises (run_queue q acc) = promises acc ∧
  microtasks (run_queue q acc) = microtasks acc ∧
  onbeforeunload (run_queue q acc) = onbeforeunload acc ∧
  trace (run_queue q acc) = trace acc ++ (decision <$> q).
Proof.
  revert acc. induction q as [|[r b] q IH]; intros acc; simpl.
  { by rewrite app_nil_r. }
  destruct (IH (run_reaction r b acc)) as (-> & -> & -> & -> & -> & ->).
  destruct (run_reaction_frame r b acc) as (-> & -> & -> & -> & -> & ->).
  by rewrite -app_assoc.
Qed.

Lemma drain_frame w :
  confirm (drain w) = confirm w ∧
  open (drain w) = open w ∧
  promises (drain w) = promises w ∧
  microtasks (drain w) = [] ∧
  onbeforeunload (drain w) = onbeforeunload w ∧
  trace (drain w) = trace w ++ (decision <$> microtasks w).
Proof.
  destruct (run_queue_frame (microtasks w) (set_microtasks [] w))
    as (H1 & H2 & H3 & H4 & H5 & H6).
  by rewrite /drain.
Qed.

End Drain.

Lemma set_microtasks_id w : set_microtasks (microtasks w) w = w.
Proof. by destruct w. Qed.

Lemma drain_idle w : microtasks w = [] → drain w = w.
Proof. intros H. by rewrite /drain H /= -{2}(set_microtasks_id w) H. Qed.

(** Between two events the microtask queue is empty. *)
Lemma step_quiescent w a : microtasks (step w a) = [].
Proof. apply drain_frame. Qed.

(** ** usePrompt.confirm *)

Lemma confirm_dirty props w :
  usePrompt.isDirty_ props = true →
  usePrompt.confirm provided props w =
    (length (promises w),
     ConfirmProvider.show (Some (usePrompt.request props (length (promises w))))
       (set_promises (promises w ++ [mkCell None []]) w)).
Proof. intros H. by rewrite /usePrompt.confirm H. Qed.

Lemma confirm_clean context props w :
  usePrompt.isDirty_ props = false →
  usePrompt.confirm context props w = Promise_resolve true w.
Proof. intros H. by rewrite /usePrompt.confirm H. Qed.

Lemma click_open c w :
  open w = true →
  click c w = match c with
              | confirmButton => ConfirmProvider.onConfirm w
              | _ => ConfirmProvider.onCancel w
              end.
Proof. intros H. rewrite /click /= H. by destruct c. Qed.

Lemma click_hidden c w : open w = false → click c w = w.
Proof. intros H. by rewrite /click /= H. Qed.

(** Clicking a control of the dialog that shows the request of a guard:
    the promise of the request settles and the configured function is
    called. *)
Lemma click_guard_request c props w ps rs :
  open w = true →
  confirm w = Some (usePrompt.request props (length ps)) →
  promises w = ps ++ [mkCell None rs] →
  let answer := match c with confirmButton => true | _ => false end in
  let user := match c with
              | confirmButton => onConfirm (options props)
              | _ => onCancel (options props)
              end in
  click c w =
    toggle false
      (call_opt_extern user
         (set_microtasks (microtasks w ++ map (λ r, (r, answer)) rs)
            (set_promises (ps ++ [mkCell (Some answer) []]) w))).
Proof.
  intros Ho Hc Hp. cbn zeta. rewrite (click_open _ _ Ho).
  assert (promises w !! length ps = Some (mkCell None rs)) as Hl.
  { rewrite Hp. apply lookup_fresh. }
  destruct c; rewrite /ConfirmProvider.onConfirm /ConfirmProvider.onCancel Hc /=;
    rewrite (resolve_pending _ _ _ _ Hl) Hp insert_fresh //.
Qed.

Lemma since_app before after l : trace after = trace before ++ l → since before after = l.
Proof. intros H. by rewrite /since H drop_app_length. Qed.

Lemma invocations_calls f g :
  invocations f (calls g) = if bool_decide (g = Some f) then 1 else 0.
Proof.
  destruct g as [g|]; rewrite /invocations /=; [|done].
  rewrite filter_cons. case_decide as H; case_bool_decide as H'; simplify_eq; done.
Qed.

(** C2: a guard with [isDirty = true] whose [confirm()] was invoked.  The
    promise is pending and the dialog displayed.  If the user then
    confirms, the promise is settled with [true], and the only call made
    is one call of the configured [onConfirm] (none when it is absent):
    [onCancel] is not called.  If the user cancels, by the cancel button
    or the close icon, the promise is settled with [false] and the only
    call made is one call of the configured [onCancel].  Either way the
    dialog is then hidden and further clicks do nothing. *)
Theorem C2_confirm_dirty (props : PromptProps) (w : World) :
  isDirty props = Some true →
  microtasks w = [] →
  let p := (usePrompt.confirm provided props w).1 in
  let w1 := (usePrompt.confirm provided props w).2 in
  let confirmed := step w1 (UserClick confirmButton) in
  let canceled := step w1 (UserClick cancelButton) in
  settled <$> promises w1 !! p = Some None ∧
  open w1 = true ∧
  (* the user confirms *)
  settled <$> promises confirmed !! p = Some (Some true) ∧
  trace confirmed = trace w1 ++ calls (onConfirm (options props)) ∧
  (∀ f, onConfirm (options props) = Some f →
        invocations f (since w1 confirmed) = 1) ∧
  (∀ g, onCancel (options props) = Some g → onConfirm (options props) ≠ Some g →
        invocations g (since w1 confirmed) = 0) ∧
  (* the user cancels *)
  settled <$> promises canceled !! p = Some (Some false) ∧
  trace canceled = trace w1 ++ calls (onCancel (options props)) ∧
  (∀ g, onCancel (options props) = Some g →
        invocations g (since w1 canceled) = 1) ∧
  (∀ f, onConfirm (options props) = Some f → onCancel (options props) ≠ Some f →
        invocations f (since w1 canceled) = 0) ∧
  step w1 (UserClick closeIcon) = canceled ∧
  (* afterwards *)
  open confirmed = false ∧ open canceled = false ∧
  (∀ c, step confirmed (UserClick c) = confirmed) ∧
  (∀ c, step canceled (UserClick c) = canceled).
Proof.
  intros Hd Hq.
  assert (usePrompt.isDirty_ props = true) as Hd' by by rewrite /usePrompt.isDirty_ Hd.
  rewrite (confirm_dirty _ _ Hd'). cbn zeta. cbn [fst snd].
  set (p := length (promises w)).
  set (w1 := ConfirmProvider.show _ _).
  assert (open w1 = true) as Ho by done.
  assert (confirm w1 = Some (usePrompt.request props p)) as Hc by done.
  assert (promises w1 = promises w ++ [mkCell None []]) as Hp by done.
  assert (microtasks w1 = []) as Hq1 by done.
  assert (∀ c, step w1 (UserClick c) = click c w1) as Hstep.
  { intros c. rewrite /step /=. apply drain_idle.
    rewrite (click_guard_request c props w1 _ _ Ho Hc Hp) /=.
    destruct c, (onConfirm (options props)), (onCancel (options props));
      by rewrite /= Hq. }
  assert (∀ c c', step (step w1 (UserClick c)) (UserClick c') = step w1 (UserClick c))
    as Hagain.
  { intros c c'. rewrite {1}/step /= click_hidden.
    - rewrite Hstep (click_guard_request c props w1 _ _ Ho Hc Hp) /=.
      by destruct c, (onConfirm (options props)), (onCancel (options props)).
    - apply drain_idle, step_quiescent. }
  pose proof (Hstep confirmButton) as Hyes.
  pose proof (Hstep cancelButton) as Hno.
  pose proof (Hstep closeIcon) as Hclose.
  rewrite (click_guard_request _ props w1 _ _ Ho Hc Hp) /= in Hyes.
  rewrite (click_guard_request _ props w1 _ _ Ho Hc Hp) /= in Hno.
  rewrite (click_guard_request _ props w1 _ _ Ho Hc Hp) /= in Hclose.
  assert (trace (step w1 (UserClick confirmButton))
          = trace w1 ++ calls (onConfirm (options props))) as Htyes.
  { by rewrite Hyes /= call_opt_extern_trace. }
  assert (trace (step w1 (UserClick cancelButton))
          = trace w1 ++ calls (onCancel (options props))) as Htno.
  { by rewrite Hno /= call_opt_extern_trace. }
  split_and!; try done.
  - by rewrite Hp lookup_fresh.
  - rewrite Hyes. destruct (onConfirm (options props)); by rewrite /= lookup_fresh.
  - intros f Hf. by rewrite (since_app _ _ _ Htyes) invocations_calls bool_decide_true.
  - intros g _ Hg. by rewrite (since_app _ _ _ Htyes) invocations_calls bool_decide_false.
  - rewrite Hno. destruct (onCancel (options props)); by rewrite /= lookup_fresh.
  - intros f Hf. by rewrite (since_app _ _ _ Htno) invocations_calls bool_decide_true.
  - intros g _ Hg. by rewrite (since_app _ _ _ Htno) invocations_calls bool_decide_false.
  - rewrite Hyes. by destruct (onConfirm (options props)).
  - rewrite Hno. by destruct (onCancel (options props)).
Qed.

Lemma C2_confirm_dirty_witness :
  let props := mkProps (Some true) (mkOptions None None None None (Some 7) (Some 8) None) in
  let w1 := (usePrompt.confirm provided props (initial "/form")).2 in
  settled <$> promises (step w1 (UserClick confirmButton)) !! 0 = Some (Some true) ∧
  trace (step w1 (UserClick confirmButton)) = trace w1 ++ [EvCallback 7] ∧
  settled <$> promises (step w1 (UserClick cancelButton)) !! 0 = Some (Some false) ∧
  trace (step w1 (UserClick cancelButton)) = trace w1 ++ [EvCallback 8].
Proof.
  cbn zeta.
  pose proof (C2_confirm_dirty
                (mkProps (Some true) (mkOptions None None None None (Some 7) (Some 8) None))
                (initial "/form") eq_refl eq_refl)
    as (_ & _ & H1 & H2 & _ & _ & H3 & H4 & _).
  split_and!; [exact H1 | exact H2 | exact H3 | exact H4].
Defined.

(** C3: a guard with [isDirty = false] (set so, or left to its default).
    [confirm()] returns a promise that is already settled with [true];
    nothing else of the world changes: no call is made, [show] included,
    the stored request and the visibility of the dialog are as before.
    This holds whatever the context's [show] is, which is not called. *)
Theorem C3_confirm_clean (context : ConfirmContext) (props : PromptProps) (w : World) :
  usePrompt.isDirty_ props = false →
  let p := (usePrompt.confirm context props w).1 in
  let w1 := (usePrompt.confirm context props w).2 in
  promises w1 !! p = Some (mkCell (Some true) []) ∧
  promises w1 = promises w ++ [mkCell (Some true) []] ∧
  trace w1 = trace w ∧
  open w1 = open w ∧
  confirm w1 = confirm w ∧
  ConfirmProvider.render w1 = ConfirmProvider.render w ∧
  microtasks w1 = microtasks w ∧
  router w1 = router w ∧
  onbeforeunload w1 = onbeforeunload w.
Proof.
  intros Hd. rewrite (confirm_clean _ _ _ Hd) /=.
  split_and!; try done. apply lookup_fresh.
Qed.

Lemma C3_confirm_clean_witness :
  let props := mkProps None (mkOptions None None None None (Some 7) (Some 8) None) in
  let w := ConfirmProvider.show None (initial "/form") in
  promises (usePrompt.confirm provided props w).2 !! 0 = Some (mkCell (Some true) []) ∧
  trace (usePrompt.confirm provided props w).2 = [EvShow None].
Proof.
  cbn zeta.
  pose proof (C3_confirm_clean provided
                (mkProps None (mkOptions None None None None (Some 7) (Some 8) None))
                (ConfirmProvider.show None (initial "/form")) eq_refl)
    as (H1 & _ & H2 & _).
  split; [exact H1 | exact H2].
Defined.

(** ** The resolution paths of the provider *)

(** C8: with a request stored, the confirm path invokes the request's
    [onConfirm] and the cancel path its [onCancel]: a function of a
    consumer is called once and nothing else is called, a closure of
    [usePrompt] settles its promise and calls the function configured on
    the guard, and with the callback absent nothing is called.  The call
    is made in the world as it was, the dialog still displayed as before,
    and only then is the visibility set to false; the stored request
    stays in the slot.  On a displayed dialog a click on the confirm
    button runs the confirm path, and a click on the cancel button or on
    the close icon runs the cancel path. *)
Theorem C8_resolution_paths (w : World) (r : ConfirmOptions Callback) :
  confirm w = Some r →
  (* which callback is invoked, and that it is *)
  trace (ConfirmProvider.onConfirm w) = trace w ++ calls (onConfirm r ≫= extern_of_callback) ∧
  trace (ConfirmProvider.onCancel w) = trace w ++ calls (onCancel r ≫= extern_of_callback) ∧
  (∀ f, onConfirm r = Some (Extern f) →
        ConfirmProvider.onConfirm w = toggle false (emit (EvCallback f) w) ∧
        invocations f (since w (ConfirmProvider.onConfirm w)) = 1) ∧
  (∀ f, onCancel r = Some (Extern f) →
        ConfirmProvider.onCancel w = toggle false (emit (EvCallback f) w) ∧
        invocations f (since w (ConfirmProvider.onCancel w)) = 1) ∧
  (∀ p user rs, onConfirm r = Some (PromptOnConfirm p user) →
        promises w !! p = Some (mkCell None rs) →
        promises (ConfirmProvider.onConfirm w) !! p = Some (mkCell (Some true) []) ∧
        since w (ConfirmProvider.onConfirm w) = calls user) ∧
  (∀ p user rs, onCancel r = Some (PromptOnCancel p user) →
        promises w !! p = Some (mkCell None rs) →
        promises (ConfirmProvider.onCancel w) !! p = Some (mkCell (Some false) []) ∧
        since w (ConfirmProvider.onCancel w) = calls user) ∧
  (onConfirm r = None → ConfirmProvider.onConfirm w = toggle false w) ∧
  (onCancel r = None → ConfirmProvider.onCancel w = toggle false w) ∧
  (* first the call, then the visibility *)
  ConfirmProvider.onConfirm w = toggle false (call_opt (onConfirm r) w) ∧
  ConfirmProvider.onCancel w = toggle false (call_opt (onCancel r) w) ∧
  open (call_opt (onConfirm r) w) = open w ∧
  open (call_opt (onCancel r) w) = open w ∧
  open (ConfirmProvider.onConfirm w) = false ∧
  open (ConfirmProvider.onCancel w) = false ∧
  confirm (ConfirmProvider.onConfirm w) = Some r ∧
  confirm (ConfirmProvider.onCancel w) = Some r ∧
  (* the controls of the dialog *)
  closeIcon_onClick (ConfirmProvider.render w) = Some ProviderOnCancel ∧
  cancelButton_onClick (ConfirmProvider.render w) = Some ProviderOnCancel ∧
  confirmButton_onClick (ConfirmProvider.render w) = Some ProviderOnConfirm ∧
  (open w = true →
     click confirmButton w = ConfirmProvider.onConfirm w ∧
     click cancelButton w = ConfirmProvider.onCancel w ∧
     click closeIcon w = ConfirmProvider.onCancel w ∧
     step w (UserClick closeIcon) = drain (ConfirmProvider.onCancel w)).
Proof.
  intros Hr.
  assert (ConfirmProvider.onConfirm w = toggle false (call_opt (onConfirm r) w)) as Hyes.
  { by rewrite /ConfirmProvider.onConfirm Hr. }
  assert (ConfirmProvider.onCancel w = toggle false (call_opt (onCancel r) w)) as Hno.
  { by rewrite /ConfirmProvider.onCancel Hr. }
  rewrite Hyes Hno /= !call_opt_trace !call_opt_open !call_opt_confirm.
  split_and!; try done.
  - intros f ->. split; [done|].
    rewrite (since_app w _ [EvCallback f]) //.
    by rewrite (invocations_calls f (Some f)) bool_decide_true.
  - intros f ->. split; [done|].
    rewrite (since_app w _ [EvCallback f]) //.
    by rewrite (invocations_calls f (Some f)) bool_decide_true.
  - intros p user rs -> Hp. simpl. rewrite (resolve_pending _ _ _ _ Hp). split.
    + destruct user; simpl; apply list_lookup_insert_eq; by eapply lookup_lt_Some.
    + apply since_app. by rewrite /= call_opt_extern_trace.
  - intros p user rs -> Hp. simpl. rewrite (resolve_pending _ _ _ _ Hp). split.
    + destruct user; simpl; apply list_lookup_insert_eq; by eapply lookup_lt_Some.
    + apply since_app. by rewrite /= call_opt_extern_trace.
  - by intros ->.
  - by intros ->.
  - intros Ho. rewrite /step /= !(click_open _ _ Ho) Hyes Hno. done.
Qed.

Lemma C8_resolution_paths_witness :
  let r := mkOptions (Some "t") None None None (Some (Extern 1)) None None in
  let w := ConfirmProvider.show (Some r) (initial "/") in
  trace (ConfirmProvider.onConfirm w) = [EvShow (Some r); EvCallback 1] ∧
  trace (ConfirmProvider.onCancel w) = [EvShow (Some r)] ∧
  invocations 1 (since w (ConfirmProvider.onConfirm w)) = 1 ∧
  click closeIcon w = ConfirmProvider.onCancel w.
Proof.
  cbn zeta.
  pose proof (C8_resolution_paths
                (ConfirmProvider.show
                   (Some (mkOptions (Some "t") None None None (Some (Extern 1)) None None))
                   (initial "/"))
                _ eq_refl)
    as (H1 & H2 & H3 & _ & _ & _ & _ & _ & _ & _ & _ & _ & _ & _ & _ & _ & _ & _ & _ & H4).
  destruct (H3 1 eq_refl) as [_ Honce].
  destruct (H4 eq_refl) as (_ & _ & Hclose & _).
  split_and!; [exact H1 | exact H2 | exact Honce | exact Hclose].
Defined.

(** ** The effect on the blocker *)

Lemma blocks_clean props target w :
  usePrompt.isDirty_ props = false →
  microtasks w = [] →
  step w (RouterBlocks props target) =
    proceed (set_promises (promises w ++ [mkCell (Some true) []])
               (report_blocked target w)).
Proof.
  intros Hd Hq. destruct w as [c o ps q r u tr]. simpl in Hq. subst q.
  rewrite /step /= /usePrompt.blocker_effect /= (confirm_clean _ _ _ Hd) /=.
  by rewrite /then_ /= lookup_fresh.
Qed.

Lemma blocks_dirty props target w :
  usePrompt.isDirty_ props = true →
  microtasks w = [] →
  step w (RouterBlocks props target) =
    ConfirmProvider.show (Some (usePrompt.request props (length (promises w))))
      (set_promises (promises w ++ [mkCell None [BlockerDecision]])
         (report_blocked target w)).
Proof.
  intros Hd Hq. destruct w as [c o ps q r u tr]. simpl in Hq. subst q.
  rewrite /step /= /usePrompt.blocker_effect /= (confirm_dirty _ _ Hd) /=.
  by rewrite /then_ /= lookup_fresh /= insert_fresh.
Qed.

(** C4: the router reports a blocked transition to a guard.  The effect
    of the guard invokes [confirm()] and subscribes to its promise the
    decision that calls [proceed()] on [true] and [reset()] on [false];
    [reset] leaves the location as it is and [proceed] moves to the
    target.  With a clean guard the promise is settled with [true] at
    once and the transition proceeds.  With a dirty guard the dialog is
    displayed with the configured texts and the transition stays blocked;
    when the user confirms, the promise settles with [true] and
    [proceed()] is called; when the user cancels (cancel button or close
    icon), it settles with [false] and [reset()] is called, the location
    being the one before.  With no texts configured the dialog is titled
    "You have unsaved changes!" and its actions are "Leave" and "Stay". *)
Theorem C4_blocked_transition (props : PromptProps) (target : string) (w : World) :
  microtasks w = [] →
  let w0 := report_blocked target w in
  let p := (usePrompt.confirm provided props w0).1 in
  let w1 := step w (RouterBlocks props target) in
  let view := ConfirmProvider.render w1 in
  usePrompt.blocker_effect provided props w0
    = then_ p BlockerDecision (usePrompt.confirm provided props w0).2 ∧
  (∀ x, run_reaction BlockerDecision true x = proceed x) ∧
  (∀ x, run_reaction BlockerDecision false x = reset x) ∧
  (∀ x, location (router (reset x)) = location (router x)) ∧
  (∀ x t, blocker (router x) = blocked t → location (router (proceed x)) = t) ∧
  (* a clean guard *)
  (usePrompt.isDirty_ props = false →
     promises w1 !! p = Some (mkCell (Some true) []) ∧
     since w w1 = [EvProceed] ∧
     router w1 = mkRouter target unblocked ∧
     open w1 = open w) ∧
  (* a dirty guard *)
  (usePrompt.isDirty_ props = true →
     since w w1 = [EvShow (Some (usePrompt.request props p))] ∧
     router w1 = mkRouter (location (router w)) (blocked target) ∧
     settled <$> promises w1 !! p = Some None ∧
     visible view = true ∧
     title_label view = Some (usePrompt.title_ props) ∧
     subtitle_label view = Some (usePrompt.subtitle_ props) ∧
     confirmButton_text view = Some (usePrompt.confirmText_ props) ∧
     cancelButton_text view = Some (usePrompt.cancelText_ props) ∧
     (let yes := step w1 (UserClick confirmButton) in
      settled <$> promises yes !! p = Some (Some true) ∧
      since w1 yes = calls (onConfirm (options props)) ++ [EvProceed] ∧
      router yes = mkRouter target unblocked) ∧
     (∀ c, c ≠ confirmButton →
           let no := step w1 (UserClick c) in
           settled <$> promises no !! p = Some (Some false) ∧
           since w1 no = calls (onCancel (options props)) ++ [EvReset] ∧
           router no = mkRouter (location (router w)) unblocked)) ∧
  (* the default texts *)
  (usePrompt.isDirty_ props = true →
   title (options props) = None →
   confirmText (options props) = None →
   cancelText (options props) = None →
     title_label view = Some "You have unsaved changes!" ∧
     confirmButton_text view = Some "Leave" ∧
     cancelButton_text view = Some "Stay").
Proof.
  intros Hq. cbn zeta.
  split_and!.
  - rewrite /usePrompt.blocker_effect /=.
    by destruct (usePrompt.confirm provided props (report_blocked target w)).
  - done.
  - done.
  - done.
  - intros x t Hb. by rewrite /proceed /= Hb.
  - intros Hd. rewrite (blocks_clean _ _ _ Hd Hq) (confirm_clean _ _ _ Hd).
    rewrite /since /proceed /= lookup_fresh drop_app_length. done.
  - intros Hd. rewrite (blocks_dirty _ _ _ Hd Hq) (confirm_dirty _ _ Hd).
    cbn [fst snd].
    set (w1 := ConfirmProvider.show _ _).
    set (ps := promises (report_blocked target w)).
    assert (open w1 = true) as Ho by done.
    assert (confirm w1 = Some (usePrompt.request props (length ps))) as Hc by done.
    assert (promises w1 = ps ++ [mkCell None [BlockerDecision]]) as Hp by done.
    assert (∀ c, step w1 (UserClick c) =
                 drain (toggle false
                   (call_opt_extern
                      (match c with
                       | confirmButton => onConfirm (options props)
                       | _ => onCancel (options props)
                       end)
                      (set_microtasks
                         [(BlockerDecision, match c with confirmButton => true | _ => false end)]
                         (set_promises
                            (ps ++ [mkCell (Some match c with confirmButton => true | _ => false end) []])
                            w1))))) as Hstep.
    { intros c. rewrite /step /= (click_guard_request c props w1 _ _ Ho Hc Hp).
      by rewrite /= Hq. }
    split_and!; try done.
    + by rewrite /since /= drop_app_length.
    + by rewrite Hp lookup_fresh.
    + rewrite Hstep. destruct (drain_frame
        (toggle false (call_opt_extern (onConfirm (options props))
           (set_microtasks [(BlockerDecision, true)]
              (set_promises (ps ++ [mkCell (Some true) []]) w1)))))
        as (_ & _ & -> & _).
      destruct (onConfirm (options props)); by rewrite /= lookup_fresh.
    + rewrite Hstep.
      destruct (onConfirm (options props));
        apply since_app; rewrite /drain /= /proceed /= -?app_assoc //.
    + rewrite Hstep. by destruct (onConfirm (options props)).
    + intros c Hne. cbn zeta. rewrite Hstep.
      destruct c; [done | |];
        (split_and!;
         [ destruct (drain_frame
             (toggle false (call_opt_extern (onCancel (options props))
                (set_microtasks [(BlockerDecision, false)]
                   (set_promises (ps ++ [mkCell (Some false) []]) w1)))))
             as (_ & _ & -> & _);
           destruct (onCancel (options props)); by rewrite /= lookup_fresh
         | destruct (onCancel (options props));
             apply since_app; rewrite /drain /= /reset /= -?app_assoc //
         | by destruct (onCancel (options props)) ]).
  - intros Hd Ht Hy Hn. rewrite (blocks_dirty _ _ _ Hd Hq) /=.
    by rewrite /usePrompt.title_ /usePrompt.confirmText_ /usePrompt.cancelText_ Ht Hy Hn.
Qed.

Lemma C4_blocked_transition_witness :
  let props := mkProps (Some true) (mkOptions None None None None None None None) in
  let w1 := step (initial "/form") (RouterBlocks props "/about") in
  title_label (ConfirmProvider.render w1) = Some "You have unsaved changes!" ∧
  confirmButton_text (ConfirmProvider.render w1) = Some "Leave" ∧
  cancelButton_text (ConfirmProvider.render w1) = Some "Stay" ∧
  router (step w1 (UserClick confirmButton)) = mkRouter "/about" unblocked ∧
  router (step w1 (UserClick cancelButton)) = mkRouter "/form" unblocked.
Proof.
  cbn zeta.
  pose proof (C4_blocked_transition
                (mkProps (Some true) (mkOptions None None None None None None None))
                "/about" (initial "/form") eq_refl)
    as (_ & _ & _ & _ & _ & _ & Hdirty & Hdefault).
  destruct (Hdirty eq_refl) as (_ & _ & _ & _ & _ & _ & _ & _ & (_ & _ & Hyes) & Hno).
  destruct (Hdefault eq_refl eq_refl eq_refl eq_refl) as (Ht & Hl & Hs).
  destruct (Hno cancelButton ltac:(discriminate)) as (_ & _ & Hstay).
  split_and!; [exact Ht | exact Hl | exact Hs | exact Hyes | exact Hstay].
Defined.

(** ** Overwriting a pending request *)

Section Overwrite.

Lemma then_confirm p r w : confirm (then_ p r w) = confirm w.
Proof. rewrite /then_. by destruct (promises w !! p) as [[[b|] rs]|]. Qed.

Lemma then_open p r w : open (then_ p r w) = open w.
Proof. rewrite /then_. by destruct (promises w !! p) as [[[b|] rs]|]. Qed.

Lemma then_trace p r w : trace (then_ p r w) = trace w.
Proof. rewrite /then_. by destruct (promises w !! p) as [[[b|] rs]|]. Qed.

Lemma then_length p r w : length (promises (then_ p r w)) = length (promises w).
Proof.
  rewrite /then_. destruct (promises w !! p) as [[[b|] rs]|]; simpl; try done.
  by rewrite length_insert.
Qed.

Lemma then_lookup_ne p q r w : p ≠ q → promises (then_ p r w) !! q = promises w !! q.
Proof.
  intros Hne. rewrite /then_. destruct (promises w !! p) as [[[b|] rs]|]; simpl; try done.
  by rewrite list_lookup_insert_ne.
Qed.

Lemma call_opt_extern_promises f w : promises (call_opt_extern f w) = promises w.
Proof. by destruct f. Qed.

Lemma call_opt_promises p c w :
  (∀ c', c = Some c' → promise_of_callback c' ≠ Some p) →
  promises (call_opt c w) !! p = promises w !! p.
Proof.
  intros H. destruct c as [[f|q u|q u]|]; simpl; try done;
    rewrite call_opt_extern_promises; apply resolve_lookup_ne;
    intros ->; by apply (H _ eq_refl).
Qed.

Lemma call_opt_length c w : length (promises (call_opt c w)) = length (promises w).
Proof.
  destruct c as [[f|q u|q u]|]; simpl; try done;
    by rewrite call_opt_extern_promises resolve_length.
Qed.

Lemma stored_onConfirm w c :
  confirm w ≫= onConfirm = Some c → c ∈ stored_callbacks w.
Proof.
  rewrite /stored_callbacks /callbacks_of. destruct (confirm w) as [r|]; simpl; [|done].
  intros ->. apply elem_of_app. left. by apply list_elem_of_singleton.
Qed.

Lemma stored_onCancel w c :
  confirm w ≫= onCancel = Some c → c ∈ stored_callbacks w.
Proof.
  rewrite /stored_callbacks /callbacks_of. destruct (confirm w) as [r|]; simpl; [|done].
  intros ->. apply elem_of_app. right. by apply list_elem_of_singleton.
Qed.

(** A click calls at most one stored function and leaves the stored
    request in place. *)
Lemma click_cases c w :
  click c w = w ∨
  ∃ cb, (∀ c', cb = Some c' → c' ∈ stored_callbacks w) ∧
        click c w = toggle false (call_opt cb w).
Proof.
  rewrite /click /=. destruct (open w); [|by left]. right.
  destruct c; simpl.
  - exists (confirm w ≫= onConfirm). split; [apply stored_onConfirm | done].
  - exists (confirm w ≫= onCancel). split; [apply stored_onCancel | done].
  - exists (confirm w ≫= onCancel). split; [apply stored_onCancel | done].
Qed.

Lemma click_confirm c w : confirm (click c w) = confirm w.
Proof.
  destruct (click_cases c w) as [->|(cb & _ & ->)]; [done|].
  apply call_opt_confirm.
Qed.

(** What an action does to the stored request. *)
Lemma dispatch_confirm a w :
  confirm (dispatch a w) =
    if shows a then request_of a (length (promises w)) else confirm w.
Proof.
  destruct a as [c|props|props target|r]; simpl.
  - apply click_confirm.
  - rewrite /usePrompt.confirm. by destruct (usePrompt.isDirty_ props).
  - rewrite /usePrompt.blocker_effect /= /usePrompt.confirm.
    destruct (usePrompt.isDirty_ props); by rewrite /= then_confirm.
  - done.
Qed.

Lemma dispatch_open a w : shows a = true → open (dispatch a w) = true.
Proof.
  destruct a as [c|props|props target|r]; simpl; try done.
  - intros Hd. by rewrite (confirm_dirty _ _ Hd).
  - intros Hd. rewrite /usePrompt.blocker_effect /= (confirm_dirty _ _ Hd).
    by rewrite then_open.
Qed.

(** Promises are never removed, and an action leaves the cells it does
    not hold the [resolve] of as they are. *)
Lemma dispatch_promises p a w :
  p < length (promises w) →
  (shows a = false → ∀ c, c ∈ stored_callbacks w → promise_of_callback c ≠ Some p) →
  promises (dispatch a w) !! p = promises w !! p ∧
  length (promises w) ≤ length (promises (dispatch a w)).
Proof.
  intros Hlt Hno. destruct a as [c|props|props target|r]; simpl.
  - destruct (click_cases c w) as [->|(cb & Hcb & ->)]; [done|]. simpl.
    rewrite call_opt_length. split; [|done].
    apply call_opt_promises. intros c' ->. by apply (Hno eq_refl), Hcb.
  - rewrite /usePrompt.confirm.
    destruct (usePrompt.isDirty_ props); simpl;
      rewrite lookup_app_l // length_app /=; split; (done || lia).
  - rewrite /usePrompt.blocker_effect /= /usePrompt.confirm.
    destruct (usePrompt.isDirty_ props); simpl;
      (rewrite then_length then_lookup_ne; [lia|]);
      rewrite /= lookup_app_l // length_app /=; split; (done || lia).
  - done.
Qed.

(** The functions of the request of an action: closures over the
    promise made for it, or functions of the consumer; the functions of
    consumers among them are those the action was given. *)
Lemma callbacks_of_request a p c :
  c ∈ callbacks_of (request_of a p) →
  (promise_of_callback c = Some p ∨ promise_of_callback c = None) ∧
  ∀ f, extern_of_callback c = Some f → f ∈ externs_of a.
Proof.
  destruct a as [k|props|props target|[r|]]; simpl;
    try (by intros ?%elem_of_nil).
  - intros [->|[->|?%elem_of_nil]%elem_of_cons]%elem_of_cons; [| |done]; simpl;
      (split; [by left|]); intros f ->; apply elem_of_app; [left|right];
      by apply list_elem_of_singleton.
  - intros [->|[->|?%elem_of_nil]%elem_of_cons]%elem_of_cons; [| |done]; simpl;
      (split; [by left|]); intros f ->; apply elem_of_app; [left|right];
      by apply list_elem_of_singleton.
  - destruct (onConfirm r) as [f1|], (onCancel r) as [f2|]; simpl;
      rewrite ?elem_of_cons ?elem_of_nil;
      intros H; destruct_or!; try done; subst c; simpl;
      (split; [by right|]); intros f [= ->]; rewrite ?elem_of_cons; auto.
Qed.

Lemma step_confirm a w :
  confirm (step w a) =
    if shows a then request_of a (length (promises w)) else confirm w.
Proof.
  rewrite /step. destruct (drain_frame (dispatch a w)) as (-> & _).
  apply dispatch_confirm.
Qed.

Lemma step_promises a w : promises (step w a) = promises (dispatch a w).
Proof. rewrite /step. by destruct (drain_frame (dispatch a w)) as (_ & _ & -> & _). Qed.

Lemma step_abandoned p a w : abandoned p w → abandoned p (step w a).
Proof.
  intros [[rs Hrs] Hno].
  assert (p < length (promises w)) as Hlt by by eapply lookup_lt_Some.
  destruct (dispatch_promises p a w Hlt (λ _, Hno)) as [Hp _].
  split.
  - exists rs. by rewrite step_promises Hp.
  - intros c. rewrite /stored_callbacks step_confirm.
    destruct (shows a); [|apply Hno].
    intros [[Hc|Hc] _]%callbacks_of_request; rewrite Hc; [|done].
    intros [= Heq]. lia.
Qed.

Lemma run_abandoned p acts w : abandoned p w → abandoned p (run acts w).
Proof.
  revert w. induction acts as [|a acts IH]; intros w H; [done|].
  apply IH. by apply step_abandoned.
Qed.

Lemma dispatch_trace allowed a w :
  only_calls allowed w →
  ∃ new, trace (dispatch a w) = trace w ++ new ∧
         ∀ f, EvCallback f ∈ new → f ∈ allowed.
Proof.
  intros Hok. destruct a as [c|props|props target|r]; simpl.
  - destruct (click_cases c w) as [->|(cb & Hcb & ->)].
    { exists []. rewrite app_nil_r. split; [done|]. by intros f ?%elem_of_nil. }
    exists (calls (cb ≫= extern_of_callback)). simpl. rewrite call_opt_trace.
    split; [done|]. intros f. destruct cb as [c'|]; simpl; [|by intros ?%elem_of_nil].
    destruct (extern_of_callback c') as [g|] eqn:E; simpl; [|by intros ?%elem_of_nil].
    intros [= ->]%list_elem_of_singleton. by eapply Hok; [apply Hcb|].
  - rewrite /usePrompt.confirm. destruct (usePrompt.isDirty_ props); simpl.
    + eexists. split; [done|]. by intros f [=]%list_elem_of_singleton.
    + exists []. rewrite app_nil_r. split; [done|]. by intros f ?%elem_of_nil.
  - rewrite /usePrompt.blocker_effect /= /usePrompt.confirm.
    destruct (usePrompt.isDirty_ props); rewrite /= then_trace /=.
    + eexists. split; [done|]. by intros f [=]%list_elem_of_singleton.
    + exists []. rewrite app_nil_r. split; [done|]. by intros f ?%elem_of_nil.
  - eexists. split; [done|]. by intros f [=]%list_elem_of_singleton.
Qed.

Lemma step_trace allowed a w :
  only_calls allowed w →
  ∃ new, trace (step w a) = trace w ++ new ∧
         ∀ f, EvCallback f ∈ new → f ∈ allowed.
Proof.
  intros Hok. destruct (dispatch_trace allowed a w Hok) as (new & Hnew & Hin).
  rewrite /step. destruct (drain_frame (dispatch a w)) as (_ & _ & _ & _ & _ & ->).
  exists (new ++ (decision <$> microtasks (dispatch a w))).
  rewrite Hnew app_assoc. split; [done|].
  intros f [?|Hd]%elem_of_app; [by apply Hin|].
  apply list_elem_of_fmap in Hd as ([r [|]] & [=] & _).
Qed.

Lemma step_only_calls allowed a w :
  only_calls allowed w →
  (∀ f, f ∈ externs_of a → f ∈ allowed) →
  only_calls allowed (step w a).
Proof.
  intros Hok Ha c f. rewrite /stored_callbacks step_confirm.
  destruct (shows a); [|apply Hok].
  intros [_ Hc]%callbacks_of_request Hf. by apply Ha, Hc.
Qed.

Lemma run_trace allowed acts w :
  only_calls allowed w →
  (∀ a f, a ∈ acts → f ∈ externs_of a → f ∈ allowed) →
  ∃ new, trace (run acts w) = trace w ++ new ∧
         ∀ f, EvCallback f ∈ new → f ∈ allowed.
Proof.
  revert w. induction acts as [|a acts IH]; intros w Hok Hacts.
  { exists []. rewrite app_nil_r. split; [done|]. by intros f ?%elem_of_nil. }
  destruct (step_trace allowed a w Hok) as (n1 & H1 & Hin1).
  destruct (IH (step w a)) as (n2 & H2 & Hin2).
  { apply step_only_calls; [done|]. intros f. apply Hacts. by left. }
  { intros a' f Ha'. apply Hacts. by right. }
  exists (n1 ++ n2). simpl. rewrite H2 H1 app_assoc. split; [done|].
  intros f [?|?]%elem_of_app; auto.
Qed.

(** A second [show] leaves the promise of the request it replaces
    without anyone to settle it. *)
Lemma overwritten_abandoned a1 a2 w :
  of_guard a1 = true → shows a1 = true → shows a2 = true →
  settled <$> promises (step w a1) !! length (promises w) = Some None ∧
  abandoned (length (promises w)) (step (step w a1) a2).
Proof.
  intros Hg H1 H2.
  assert (∃ rs, promises (step w a1) !! length (promises w) = Some (mkCell None rs))
    as [rs Hrs].
  { rewrite step_promises. destruct a1 as [c|props|props target|r]; try done; simpl in *.
    - rewrite (confirm_dirty _ _ H1) /= lookup_fresh. eauto.
    - rewrite /usePrompt.blocker_effect /= (confirm_dirty _ _ H1) /=.
      rewrite /then_ /= lookup_fresh /= insert_fresh lookup_fresh. eauto. }
  split; [by rewrite Hrs|].
  assert (length (promises w) < length (promises (step w a1))) as Hlt
    by by eapply lookup_lt_Some.
  destruct (dispatch_promises _ a2 (step w a1) Hlt) as [Hp _].
  { by rewrite H2. }
  split.
  - exists rs. by rewrite step_promises Hp.
  - intros c. rewrite /stored_callbacks step_confirm H2.
    intros [[Hc|Hc] _]%callbacks_of_request; rewrite Hc; [|done].
    intros [= Heq]. lia.
Qed.

Lemma invocations_none f l : EvCallback f ∉ l → invocations f l = 0.
Proof.
  rewrite /invocations. induction l as [|e l IH]; [done|].
  intros [Hne Hl]%not_elem_of_cons. rewrite filter_cons.
  case_decide; [by subst|]. by apply IH.
Qed.

End Overwrite.

(** C5: two calls of [show], the second made while the request of the
    first is still pending (a dirty guard's [confirm()], by hand or from
    the blocker effect, or a [show] of a consumer).  The second request
    replaces the first in the coordinator's slot.  Whatever happens
    afterwards (clicks, further confirmations, blocked transitions,
    further shows), the promise of the first request stays pending, and
    every function of a consumer called is one of the second or of a
    later request: a function only the first request carried is never
    called. *)
Theorem C5_second_show_overwrites (w : World) (a1 a2 : Action) (acts : list Action) :
  shows a1 = true →
  shows a2 = true →
  let p1 := length (promises w) in
  let w1 := step w a1 in
  let w2 := step w1 a2 in
  let w' := run acts w2 in
  let later := externs_of a2 ++ (acts ≫= externs_of) in
  confirm w1 = request_of a1 p1 ∧
  confirm w2 = request_of a2 (length (promises w1)) ∧
  open w2 = true ∧
  (of_guard a1 = true →
     settled <$> promises w1 !! p1 = Some None ∧
     settled <$> promises w' !! p1 = Some None ∧
     ∀ c, c ∈ callbacks_of (request_of a1 p1) → c ∉ stored_callbacks w') ∧
  (∀ f, EvCallback f ∈ since w2 w' → f ∈ later) ∧
  (∀ f, f ∈ externs_of a1 → f ∉ later → invocations f (since w2 w') = 0).
Proof.
  intros H1 H2. cbn zeta.
  assert (∀ f, EvCallback f ∈ since (step (step w a1) a2) (run acts (step (step w a1) a2))
               → f ∈ externs_of a2 ++ (acts ≫= externs_of)) as Hcalls.
  { destruct (run_trace (externs_of a2 ++ (acts ≫= externs_of)) acts
                (step (step w a1) a2)) as (new & Hnew & Hin).
    - intros c f. rewrite /stored_callbacks step_confirm H2.
      intros [_ Hc]%callbacks_of_request Hf. apply elem_of_app. left. by apply Hc.
    - intros a f Ha Hf. apply elem_of_app. right. apply list_elem_of_bind. eauto.
    - by rewrite (since_app _ _ _ Hnew). }
  split_and!.
  - by rewrite step_confirm H1.
  - by rewrite step_confirm H2.
  - rewrite /step. destruct (drain_frame (dispatch a2 (drain (dispatch a1 w))))
      as (_ & -> & _). by apply dispatch_open.
  - intros Hg. destruct (overwritten_abandoned a1 a2 w Hg H1 H2) as [Hpending Hab].
    split; [done|].
    destruct (run_abandoned _ acts _ Hab) as [[rs Hrs] Hno].
    split; [by rewrite Hrs|].
    intros c Hc Hin. apply (Hno c Hin).
    destruct a1 as [k|props|props target|r]; try done; simpl in Hc;
      apply elem_of_cons in Hc as [->|Hc]; try done;
      apply list_elem_of_singleton in Hc as ->; done.
  - done.
  - intros f _ Hf. apply invocations_none. intros Hin. by apply Hf, Hcalls.
Qed.

Lemma C5_second_show_overwrites_witness :
  let first := mkProps (Some true) (mkOptions None None None None (Some 1) (Some 2) None) in
  let second := mkProps (Some true) (mkOptions None None None None (Some 3) (Some 4) None) in
  let w2 := step (step (initial "/form") (GuardConfirm first)) (GuardConfirm second) in
  let w' := run [UserClick confirmButton; UserClick cancelButton] w2 in
  settled <$> promises w' !! 0 = Some None ∧
  invocations 1 (since w2 w') = 0 ∧
  invocations 2 (since w2 w') = 0.
Proof.
  cbn zeta.
  pose proof (C5_second_show_overwrites (initial "/form")
                (GuardConfirm
                   (mkProps (Some true) (mkOptions None None None None (Some 1) (Some 2) None)))
                (GuardConfirm
                   (mkProps (Some true) (mkOptions None None None None (Some 3) (Some 4) None)))
                [UserClick confirmButton; UserClick cancelButton] eq_refl eq_refl)
    as (_ & _ & _ & Hpromise & _ & Hnever).
  destruct (Hpromise eq_refl) as (_ & Hpending & _).
  split_and!; [exact Hpending | apply Hnever | apply Hnever].
  - apply (bool_decide_unpack _). vm_compute. exact I.
  - apply (bool_decide_unpack _). vm_compute. exact I.
  - apply (bool_decide_unpack _). vm_compute. exact I.
  - apply (bool_decide_unpack _). vm_compute. exact I.
Defined.

(** ** useConfirm *)

Lemma useContext_in ancestors :
  ConfirmProviderNode ∈ ancestors → useContext ancestors = Some provided.
Proof.
  induction ancestors as [|[| |name] above IH]; simpl.
  - by intros ?%elem_of_nil.
  - done.
  - intros [?|?]%elem_of_cons; [done | by apply IH].
  - intros [?|?]%elem_of_cons; [done | by apply IH].
Qed.

Lemma useContext_notin ancestors :
  ConfirmProviderNode ∉ ancestors → useContext ancestors = None.
Proof.
  induction ancestors as [|[| |name] above IH]; simpl.
  - done.
  - intros []. by left.
  - intros [_ ?]%not_elem_of_cons. by apply IH.
  - intros [_ ?]%not_elem_of_cons. by apply IH.
Qed.

(** C6: [useConfirm] throws the error "useConfirm must be used within a
    ConfirmProvider" exactly when no ConfirmProvider is among the
    ancestors of the component that calls it, whatever else is above it:
    it never returns without a context.  It returns the provider's
    [{ show }], and so does not throw, exactly when one is. *)
Theorem C6_useConfirm_scope (ancestors : list Component) :
  let error := mkError "useConfirm must be used within a ConfirmProvider" in
  (ConfirmProviderNode ∉ ancestors ↔ useConfirm ancestors = inl error) ∧
  (ConfirmProviderNode ∈ ancestors ↔ useConfirm ancestors = inr provided).
Proof.
  cbn zeta. rewrite /useConfirm.
  destruct (decide (ConfirmProviderNode ∈ ancestors)) as [H|H].
  - rewrite (useContext_in _ H). split; split; done.
  - rewrite (useContext_notin _ H). split; split; done.
Qed.

(** ** The before-unload interception *)

Lemma unload_effect_slot props w :
  onbeforeunload (usePrompt.unload_effect props w) =
    if usePrompt.isDirty_ props
    then Some (ReturnSubtitle (usePrompt.subtitle_ props))
    else onbeforeunload w.
Proof. rewrite /usePrompt.unload_effect. by destruct (usePrompt.isDirty_ props). Qed.

Lemma commit_slot st ev :
  onbeforeunload st.2 = slot_of st.1 →
  onbeforeunload (commit st ev).2 = slot_of (commit st ev).1 ∧
  (commit st ev).1 = match ev with
                     | Render props => Some (unload_deps props)
                     | Unmount => None
                     end.
Proof.
  destruct st as [[deps|] w], ev as [props|]; simpl; intros H; try done.
  - case_bool_decide as Hd; simpl; [by subst|].
    rewrite unload_effect_slot /unload_deps /=.
    by destruct (usePrompt.isDirty_ props).
  - rewrite unload_effect_slot /unload_deps /=.
    by destruct (usePrompt.isDirty_ props).
Qed.

Lemma lifecycle_slot evs w :
  onbeforeunload w = None →
  onbeforeunload (lifecycle evs w).2 = slot_of (lifecycle evs w).1.
Proof.
  intros H. rewrite /lifecycle.
  induction evs as [|ev evs IH] using rev_ind; [done|].
  rewrite foldl_app /=. by apply commit_slot.
Qed.

Lemma lifecycle_snoc evs ev w :
  lifecycle (evs ++ [ev]) w = commit (lifecycle evs w) ev.
Proof. by rewrite /lifecycle foldl_app. Qed.

(** C7, as stated, fails.  A guard configured with the empty subtitle
    installs, while it is dirty, a handler that returns the empty string.
    And of two dirty guards, the unmount of the second empties the slot
    while the first is still mounted and dirty: no interception is left
    for it. *)
Lemma C7_nonempty_warning_fails :
  let blank := mkProps (Some true) (mkOptions None (Some "") None None None None None) in
  let w := (lifecycle [Render blank] (initial "/form")).2 in
  let one := mkProps (Some true) (mkOptions None (Some "one") None None None None None) in
  let two := mkProps (Some true) (mkOptions None (Some "two") None None None None None) in
  let first := commit (None, initial "/form") (Render one) in
  let second := commit (None, first.2) (Render two) in
  let after := commit (second.1, second.2) Unmount in
  ¬ (∃ text, fire_beforeunload w = Some text ∧ text ≠ "") ∧
  (first.1 = Some (true, "one") ∧ ¬ (∃ text, fire_beforeunload after.2 = Some text)).
Proof.
  cbn zeta. vm_compute. split_and!.
  - by intros (text & [= <-] & Hne).
  - done.
  - by intros (text & [=]).
Qed.

(** C7 (amended): a guard instance that is the only one to write the
    slot, which is empty before it mounts.  After any of its renders with
    [isDirty] true, the slot holds a handler that returns the subtitle of
    that render (the configured one, or "Are you sure you want to
    leave?"), a non-empty string unless the empty string was configured;
    after a render with [isDirty] false, and after unmount, the slot is
    [null] and no handler fires. *)
Theorem C7_unload_interception (w : World) (evs : list Lifecycle) (props : PromptProps) :
  onbeforeunload w = None →
  let rendered := (lifecycle (evs ++ [Render props]) w).2 in
  let unmounted := (lifecycle (evs ++ [Render props; Unmount]) w).2 in
  (usePrompt.isDirty_ props = true →
     onbeforeunload rendered = Some (ReturnSubtitle (usePrompt.subtitle_ props)) ∧
     fire_beforeunload rendered = Some (usePrompt.subtitle_ props)) ∧
  (subtitle (options props) = None →
     usePrompt.subtitle_ props = "Are you sure you want to leave?") ∧
  (subtitle (options props) ≠ Some "" → usePrompt.subtitle_ props ≠ "") ∧
  (usePrompt.isDirty_ props = false →
     onbeforeunload rendered = None ∧ fire_beforeunload rendered = None) ∧
  onbeforeunload unmounted = None ∧
  fire_beforeunload unmounted = None.
Proof.
  intros Hw. cbn zeta.
  assert (onbeforeunload (lifecycle (evs ++ [Render props]) w).2
          = slot_of (Some (unload_deps props))) as Hr.
  { rewrite lifecycle_snoc.
    destruct (commit_slot (lifecycle evs w) (Render props)) as [-> ->]; [|done].
    by apply lifecycle_slot. }
  assert (onbeforeunload (lifecycle (evs ++ [Render props; Unmount]) w).2 = None) as Hu.
  { rewrite (assoc_L (++) evs [Render props] [Unmount]) lifecycle_snoc.
    destruct (commit_slot (lifecycle (evs ++ [Render props]) w) Unmount) as [-> ->]; [|done].
    by apply lifecycle_slot. }
  rewrite /fire_beforeunload Hr Hu /unload_deps /=.
  split_and!; try done.
  - by intros ->.
  - by rewrite /usePrompt.subtitle_; intros ->.
  - rewrite /usePrompt.subtitle_. by destruct (subtitle (options props)) as [[|]|].
  - by intros ->.
Qed.

Lemma C7_unload_interception_witness :
  let dirty := mkProps (Some true) (mkOptions None None None None None None None) in
  let clean := mkProps (Some false) (mkOptions None None None None None None None) in
  fire_beforeunload (lifecycle [Render clean; Render dirty] (initial "/form")).2
    = Some "Are you sure you want to leave?" ∧
  fire_beforeunload (lifecycle [Render clean; Render dirty; Unmount] (initial "/form")).2
    = None.
Proof.
  cbn zeta.
  pose proof (C7_unload_interception (initial "/form")
                [Render (mkProps (Some false) (mkOptions None None None None None None None))]
                (mkProps (Some true) (mkOptions None None None None None None None))
                eq_refl)
    as (Hdirty & _ & _ & _ & _ & Hgone).
  destruct (Hdirty eq_refl) as [_ Hfire].
  split; [exact Hfire | exact Hgone].
Defined.

(** C10: the registration is one assignment to one slot.  Of two guards
    that are dirty at the same time, the one whose effect ran later has
    its handler in the slot, in place of the other's.  The cleanup of
    either, at its unmount or when its [isDirty] turns false, sets the
    slot to [null] whatever it holds, so the handler of the other guard,
    still mounted and dirty, is gone.  The effect and the cleanup change
    nothing but the slot. *)
Theorem C10_single_global_slot (props1 props2 clean2 : PromptProps) (w : World) :
  usePrompt.isDirty_ props1 = true →
  usePrompt.isDirty_ props2 = true →
  usePrompt.isDirty_ clean2 = false →
  let first := commit (None, w) (Render props1) in
  let second := commit (None, first.2) (Render props2) in
  (* direct assignment: the later handler replaces the earlier one *)
  onbeforeunload first.2 = Some (ReturnSubtitle (usePrompt.subtitle_ props1)) ∧
  onbeforeunload second.2 = Some (ReturnSubtitle (usePrompt.subtitle_ props2)) ∧
  (* the cleanup of either empties the slot, the other being mounted and dirty *)
  (∀ x, onbeforeunload (usePrompt.unload_cleanup x) = None) ∧
  onbeforeunload (commit (second.1, second.2) Unmount).2 = None ∧
  first.1 = Some (true, usePrompt.subtitle_ props1) ∧
  onbeforeunload (commit (first.1, second.2) Unmount).2 = None ∧
  second.1 = Some (true, usePrompt.subtitle_ props2) ∧
  onbeforeunload (commit (second.1, second.2) (Render clean2)).2 = None ∧
  fire_beforeunload (commit (second.1, second.2) (Render clean2)).2 = None ∧
  (* nothing but the slot is written *)
  (∀ props x, usePrompt.unload_effect props x =
                set_onbeforeunload (onbeforeunload (usePrompt.unload_effect props x)) x) ∧
  (∀ x, usePrompt.unload_cleanup x = set_onbeforeunload None x) ∧
  (∀ h x, confirm (set_onbeforeunload h x) = confirm x ∧
          open (set_onbeforeunload h x) = open x ∧
          promises (set_onbeforeunload h x) = promises x ∧
          microtasks (set_onbeforeunload h x) = microtasks x ∧
          router (set_onbeforeunload h x) = router x ∧
          trace (set_onbeforeunload h x) = trace x).
Proof.
  intros H1 H2 H3. cbn zeta. simpl.
  rewrite /unload_deps !unload_effect_slot H1 H2 H3 /=.
  rewrite /fire_beforeunload unload_effect_slot H3 /=.
  split_and!; try done.
  intros props [c o ps q r u tr]. rewrite /usePrompt.unload_effect.
  by destruct (usePrompt.isDirty_ props).
Qed.

Lemma C10_single_global_slot_witness :
  let page1 := mkProps (Some true) (mkOptions None (Some "one") None None None None None) in
  let page2 := mkProps (Some true) (mkOptions None (Some "two") None None None None None) in
  let w2 := usePrompt.unload_effect page2 (usePrompt.unload_effect page1 (initial "/")) in
  fire_beforeunload w2 = Some "two" ∧
  fire_beforeunload (usePrompt.unload_cleanup w2) = None.
Proof.
  cbn zeta.
  pose proof (C10_single_global_slot
                (mkProps (Some true) (mkOptions None (Some "one") None None None None None))
                (mkProps (Some true) (mkOptions None (Some "two") None None None None None))
                (mkProps None (mkOptions None None None None None None None))
                (initial "/") eq_refl eq_refl eq_refl)
    as (_ & Hsecond & Hclean & _).
  split.
  - exact (f_equal (fmap call_unload) Hsecond).
  - exact (f_equal (fmap call_unload) (Hclean _)).
Defined.

(** ** The form of the contact page *)

Lemma formReducer_keeps field value state acts :
  Forall (λ a, writes field a = false) acts →
  state !! field = Some value →
  foldl formReducer state acts !! field = Some value.
Proof.
  intros Hacts. revert state.
  induction Hacts as [|a acts Ha _ IH]; intros state Hs; [done|].
  simpl. apply IH. destruct a as [f v|]; [|done]. simpl in *.
  apply bool_decide_eq_false in Ha. by rewrite lookup_insert_ne.
Qed.

(** X1: a property written by UPDATE_FIELD reads back as the value
    written, and keeps it through any later actions that are neither an
    update of the same property nor a reset; the update leaves every
    other property as it was. *)
Theorem X1_formReducer_write_persists
    (state : gmap string string) (field value : string) (acts : list FormAction) :
  Forall (λ a, writes field a = false) acts →
  foldl formReducer (formReducer state (UPDATE_FIELD field value)) acts !! field
    = Some value ∧
  ∀ other, other ≠ field →
    formReducer state (UPDATE_FIELD field value) !! other = state !! other.
Proof.
  intros Hacts. split.
  - apply formReducer_keeps; [done|]. apply lookup_insert_eq.
  - intros other Hne. simpl. by rewrite lookup_insert_ne.
Qed.

Lemma X1_formReducer_write_persists_witness :
  foldl formReducer (formReducer initialState (UPDATE_FIELD "email" "a@b.c"))
        [UPDATE_FIELD "name" "Ada"; UPDATE_FIELD "message" "hello"] !! "email"
    = Some "a@b.c".
Proof.
  refine (proj1 (X1_formReducer_write_persists initialState "email" "a@b.c"
                   [UPDATE_FIELD "name" "Ada"; UPDATE_FIELD "message" "hello"] _)).
  repeat constructor.
Defined.

(** X2: updates of two different properties commute, and of two updates
    of the same property the later one alone counts. *)
Theorem X2_formReducer_updates_compose
    (state : gmap string string) (f1 f2 v1 v2 : string) :
  (f1 ≠ f2 →
     formReducer (formReducer state (UPDATE_FIELD f1 v1)) (UPDATE_FIELD f2 v2) =
     formReducer (formReducer state (UPDATE_FIELD f2 v2)) (UPDATE_FIELD f1 v1)) ∧
  formReducer (formReducer state (UPDATE_FIELD f1 v1)) (UPDATE_FIELD f1 v2) =
  formReducer state (UPDATE_FIELD f1 v2).
Proof.
  simpl. split.
  - intros Hne. by apply insert_insert_ne.
  - apply insert_insert_eq.
Qed.

Lemma initialState_well_formed : well_formed initialState.
Proof. rewrite /well_formed /initialState. split_and!; by eexists. Qed.

Lemma formReducer_well_formed state action :
  well_formed state → well_formed (formReducer state action).
Proof.
  intros (Hn & He & Hm). destruct action as [f v|]; [|apply initialState_well_formed].
  rewrite /well_formed /=. split_and!; apply lookup_insert_is_Some';  by right.
Qed.

(** X3: whatever actions are dispatched from the initial state, with
    whatever property names, the three properties the page reads are
    present, so no control is ever given [undefined]; and a reset gives
    the initial state again whatever came before. *)
Theorem X3_formReducer_reachable (state0 : gmap string string) (acts : list FormAction) :
  well_formed (foldl formReducer initialState acts) ∧
  foldl formReducer state0 (acts ++ [RESET_FORM]) = initialState.
Proof.
  split; [|by rewrite foldl_app].
  assert (∀ s, well_formed s → well_formed (foldl formReducer s acts)) as H.
  { induction acts as [|a acts IH]; intros s Hs; [done|].
    simpl. by apply IH, formReducer_well_formed. }
  apply H, initialState_well_formed.
Qed.

Lemma truthy_Some v : truthy v = true ↔ ∃ s, v = Some s ∧ s ≠ "".
Proof.
  destruct v as [s|]; simpl.
  - rewrite negb_true_iff. split.
    + intros H. exists s. split; [done|]. intros ->. by rewrite String.eqb_refl in H.
    + intros (s' & [= <-] & Hne). by apply String.eqb_neq.
  - split; [done | by intros (s & ? & _)].
Qed.

Lemma js_and_truthy a b : truthy (js_and a b) = truthy a && truthy b.
Proof. rewrite /js_and. by destruct (truthy a) eqn:E. Qed.

Lemma submit_enabled_complete state : submit_disabled state = false ↔ complete state.
Proof.
  rewrite /submit_disabled /canSubmit negb_false_iff !js_and_truthy !andb_true_iff.
  rewrite !truthy_Some /complete. split.
  - intros [[(n & ? & ?) (e & ? & ?)] (m & ? & ?)]. by exists n, e, m.
  - intros (n & e & m & ? & ? & ? & ? & ? & ?). split_and!; eauto.
Qed.

(** X4: the submit button is enabled exactly when the three properties
    [name], [email] and [message] are present and non-empty strings; the
    value of [canSubmit] is then the message.  No other property of the
    form matters, and the initial form cannot be submitted. *)
Theorem X4_canSubmit (state : gmap string string) :
  (submit_disabled state = false ↔ complete state) ∧
  (submit_disabled state = false → canSubmit state = state !! "message") ∧
  (∀ field value, field ≠ "name" → field ≠ "email" → field ≠ "message" →
     canSubmit (formReducer state (UPDATE_FIELD field value)) = canSubmit state) ∧
  submit_disabled initialState = true.
Proof.
  split_and!.
  - apply submit_enabled_complete.
  - rewrite /submit_disabled /canSubmit /js_and negb_false_iff.
    destruct (truthy (state !! "name")) eqn:En;
      destruct (truthy (state !! "email")) eqn:Ee;
      rewrite ?En ?Ee; (done || congruence).
  - intros field value H1 H2 H3. rewrite /canSubmit /=.
    by rewrite !lookup_insert_ne.
  - done.
Qed.

(** ** The contact page *)

Lemma page_run_snoc evs ev pg :
  ContactPage.run (evs ++ [ev]) pg = ContactPage.on_event (ContactPage.run evs pg) ev.
Proof. by rewrite /ContactPage.run foldl_app. Qed.

(** X5: on the contact page, whatever the user does, every form shown by
    [alert] has its three properties non-empty, because the submit button
    is disabled otherwise; a submission that goes through shows the form
    as it was, resets it to the initial one and clears the dirty flag,
    and one that is prevented changes nothing. *)
Theorem X5_contact_page_submissions (evs : list ContactPage.Event) (pg0 : ContactPage.Page) :
  Forall complete (ContactPage.alerts (ContactPage.run evs ContactPage.mounted)) ∧
  (complete (ContactPage.state pg0) →
     ContactPage.on_event pg0 ContactPage.Submit =
       ContactPage.mkPage initialState false
         (ContactPage.alerts pg0 ++ [ContactPage.state pg0])) ∧
  (¬ complete (ContactPage.state pg0) →
     ContactPage.on_event pg0 ContactPage.Submit = pg0).
Proof.
  split_and!.
  - induction evs as [|ev evs IH] using rev_ind; [by constructor|].
    rewrite page_run_snoc. destruct ev as [i v|]; simpl; [done|].
    destruct (submit_disabled _) eqn:E; [done|]. simpl.
    apply Forall_app. split; [done|]. constructor; [|done].
    by apply submit_enabled_complete.
  - intros Hc%submit_enabled_complete. by rewrite /= Hc.
  - intros Hc. rewrite /=. destruct (submit_disabled _) eqn:E; [done|].
    by apply submit_enabled_complete in E.
Qed.

(** X6: on the contact page a clear dirty flag means an untouched form:
    whenever [isDirty] is false the form is the initial one (and cannot
    be submitted).  The converse does not hold, the flag not being
    computed from the content: changing a control and changing it back
    gives the same form with the flag set. *)
Theorem X6_contact_page_dirty_flag (evs : list ContactPage.Event) :
  let pg := ContactPage.run evs ContactPage.mounted in
  (ContactPage.isDirty pg = false →
     ContactPage.state pg = initialState ∧ submit_disabled (ContactPage.state pg) = true) ∧
  (∀ i value old,
     ContactPage.state pg !! input_name i = Some old →
     let pg' := ContactPage.run [ContactPage.Change i value; ContactPage.Change i old] pg in
     ContactPage.state pg' = ContactPage.state pg ∧ ContactPage.isDirty pg' = true).
Proof.
  cbn zeta. split.
  - assert (ContactPage.isDirty (ContactPage.run evs ContactPage.mounted) = false →
            ContactPage.state (ContactPage.run evs ContactPage.mounted) = initialState) as H.
    { induction evs as [|ev evs IH] using rev_ind; [done|].
      rewrite page_run_snoc. destruct ev as [i v|]; simpl; [done|].
      by destruct (submit_disabled _). }
    intros Hd. rewrite (H Hd). done.
  - intros i value old Hold. simpl. split; [|done].
    rewrite insert_insert_eq. by apply insert_id.
Qed.

Lemma commit_frame st ev :
  confirm (commit st ev).2 = confirm st.2 ∧
  open (commit st ev).2 = open st.2 ∧
  promises (commit st ev).2 = promises st.2 ∧
  microtasks (commit st ev).2 = microtasks st.2 ∧
  router (commit st ev).2 = router st.2 ∧
  trace (commit st ev).2 = trace st.2.
Proof.
  destruct st as [[deps|] w], ev as [props|]; simpl; try done.
  - case_bool_decide; simpl; [done|].
    rewrite /usePrompt.unload_effect. by destruct (usePrompt.isDirty_ props).
  - rewrite /usePrompt.unload_effect. by destruct (usePrompt.isDirty_ props).
Qed.

Lemma live_snoc evs ev w :
  ContactPage.live (evs ++ [ev]) w = ContactPage.live_step (ContactPage.live evs w) ev.
Proof. by rewrite /ContactPage.live foldl_app. Qed.

(** X7: the contact page with its guard, mounted on a page whose
    before-unload slot is empty.  After any sequence of changes and
    submissions, leaving the page gets the warning "Are you sure you want
    to leave?" exactly when the dirty flag is set, that is, from the
    first change until the next submission that goes through; unmounting
    the page removes the warning; and the guard has written nothing but
    the slot. *)
Theorem X7_contact_page_guard (w : World) (evs : list ContactPage.Event) :
  onbeforeunload w = None →
  let pg := (ContactPage.live evs w).1 in
  let w' := (ContactPage.live evs w).2.2 in
  pg = ContactPage.run evs ContactPage.mounted ∧
  fire_beforeunload w' =
    (if ContactPage.isDirty pg then Some "Are you sure you want to leave?" else None) ∧
  fire_beforeunload (commit (ContactPage.live evs w).2 Unmount).2 = None ∧
  trace w' = trace w ∧ confirm w' = confirm w ∧ open w' = open w ∧
  router w' = router w ∧ promises w' = promises w.
Proof.
  intros Hw. cbn zeta.
  assert ((ContactPage.live evs w).1 = ContactPage.run evs ContactPage.mounted ∧
          onbeforeunload (ContactPage.live evs w).2.2 = slot_of (ContactPage.live evs w).2.1 ∧
          (ContactPage.live evs w).2.1
            = Some (unload_deps (ContactPage.prompt_props (ContactPage.live evs w).1)) ∧
          confirm (ContactPage.live evs w).2.2 = confirm w ∧
          open (ContactPage.live evs w).2.2 = open w ∧
          promises (ContactPage.live evs w).2.2 = promises w ∧
          router (ContactPage.live evs w).2.2 = router w ∧
          trace (ContactPage.live evs w).2.2 = trace w)
    as (Hpg & Hslot & Hdeps & Hc & Ho & Hp & Hr & Ht).
  { induction evs as [|ev evs IH] using rev_ind.
    - rewrite /ContactPage.live /ContactPage.mount /=. by rewrite Hw.
    - destruct IH as (IHpg & IHslot & IHdeps & IHc & IHo & IHp & IHr & IHt).
      rewrite live_snoc page_run_snoc /ContactPage.live_step /=.
      destruct (commit_slot (ContactPage.live evs w).2
                  (Render (ContactPage.prompt_props
                             (ContactPage.on_event (ContactPage.live evs w).1 ev))) IHslot)
        as [Hs Hd].
      destruct (commit_frame (ContactPage.live evs w).2
                  (Render (ContactPage.prompt_props
                             (ContactPage.on_event (ContactPage.live evs w).1 ev))))
        as (-> & -> & -> & _ & -> & ->).
      by rewrite Hs Hd IHpg. }
  split_and!; try done.
  - rewrite /fire_beforeunload Hslot Hdeps /unload_deps /=.
    rewrite /usePrompt.isDirty_ /=. by destruct (ContactPage.isDirty _).
  - destruct (commit_slot (ContactPage.live evs w).2 Unmount Hslot) as [Hs Hd].
    by rewrite /fire_beforeunload Hs Hd.
Qed.

Lemma X7_contact_page_guard_witness :
  let typed := [ContactPage.Change name_input "Ada"] in
  let sent := [ContactPage.Change name_input "Ada"; ContactPage.Change email_input "a@b.c";
               ContactPage.Change message_input "hello"; ContactPage.Submit] in
  fire_beforeunload (ContactPage.live typed (initial "/contact")).2.2
    = Some "Are you sure you want to leave?" ∧
  fire_beforeunload (ContactPage.live sent (initial "/contact")).2.2 = None.
Proof.
  cbn zeta. split.
  - exact (proj1 (proj2 (X7_contact_page_guard (initial "/contact")
                           [ContactPage.Change name_input "Ada"] eq_refl))).
  - exact (proj1 (proj2 (X7_contact_page_guard (initial "/contact")
                           [ContactPage.Change name_input "Ada";
                            ContactPage.Change email_input "a@b.c";
                            ContactPage.Change message_input "hello";
                            ContactPage.Submit] eq_refl))).
Defined.

(** ** More on usePrompt and the provider *)

(** X8: [confirm()] of a dirty guard calls [show] exactly once and makes
    no other call; the dialog is then displayed with the configured
    title, subtitle and button texts, each replaced by its default when
    it is not configured, and with the colours and icon of the configured
    severity (warning by default), whatever was displayed before. *)
Theorem X8_confirm_shows_configured_dialog (props : PromptProps) (w : World) :
  usePrompt.isDirty_ props = true →
  let p := (usePrompt.confirm provided props w).1 in
  let w1 := (usePrompt.confirm provided props w).2 in
  let view := ConfirmProvider.render w1 in
  let severity := default warning (type (options props)) in
  since w w1 = [EvShow (Some (usePrompt.request props p))] ∧
  visible view = true ∧
  title_label view = Some (default "You have unsaved changes!" (title (options props))) ∧
  subtitle_label view
    = Some (default "Are you sure you want to leave?" (subtitle (options props))) ∧
  confirmButton_text view = Some (default "Leave" (confirmText (options props))) ∧
  cancelButton_text view = Some (default "Stay" (cancelText (options props))) ∧
  background view = bgColor (colorMap severity) ∧
  icon view = iconMap severity ∧
  header_color (ConfirmProvider.dialog_props w1) = textColor (colorMap severity) ∧
  confirmButton_background (ConfirmProvider.dialog_props w1) = iconColor (colorMap severity).
Proof.
  intros Hd. rewrite (confirm_dirty _ _ Hd). cbn zeta. cbn [fst snd].
  split_and!; try done.
  by apply since_app.
Qed.

Lemma X8_confirm_shows_configured_dialog_witness :
  let props := mkProps (Some true)
                 (mkOptions (Some "Discard draft?") None (Some "Discard") None None None
                            (Some error)) in
  let view := ConfirmProvider.render
                (usePrompt.confirm provided props
                   (ConfirmProvider.show None (initial "/form"))).2 in
  title_label view = Some "Discard draft?" ∧
  subtitle_label view = Some "Are you sure you want to leave?" ∧
  confirmButton_text view = Some "Discard" ∧
  cancelButton_text view = Some "Stay" ∧
  background view = "#FDEDED" ∧
  icon view = ErrorIcon.
Proof.
  cbn zeta.
  pose proof (X8_confirm_shows_configured_dialog
                (mkProps (Some true)
                   (mkOptions (Some "Discard draft?") None (Some "Discard") None None None
                              (Some error)))
                (ConfirmProvider.show None (initial "/form")) eq_refl)
    as (_ & _ & H1 & H2 & H3 & H4 & H5 & H6 & _).
  split_and!; [exact H1 | exact H2 | exact H3 | exact H4 | exact H5 | exact H6].
Defined.

Lemma confirm_promises props w :
  ∃ cell, (usePrompt.confirm provided props w).1 = length (promises w) ∧
          promises (usePrompt.confirm provided props w).2 = promises w ++ [cell] ∧
          router (usePrompt.confirm provided props w).2 = router w ∧
          onbeforeunload (usePrompt.confirm provided props w).2 = onbeforeunload w ∧
          microtasks (usePrompt.confirm provided props w).2 = microtasks w.
Proof.
  rewrite /usePrompt.confirm. destruct (usePrompt.isDirty_ props); simpl; by eexists.
Qed.

(** X9: every [confirm()], of a dirty or of a clean guard, returns a
    promise that did not exist before, so two calls never share their
    promise; it leaves every promise that existed as it was, settled or
    pending, and does not touch the router, the microtask queue or the
    before-unload slot. *)
Theorem X9_confirm_fresh_promise (props props' : PromptProps) (w : World) :
  let p := (usePrompt.confirm provided props w).1 in
  let w1 := (usePrompt.confirm provided props w).2 in
  let p' := (usePrompt.confirm provided props' w1).1 in
  promises w !! p = None ∧
  is_Some (promises w1 !! p) ∧
  p' ≠ p ∧
  (∀ q, is_Some (promises w !! q) → promises w1 !! q = promises w !! q) ∧
  router w1 = router w ∧
  onbeforeunload w1 = onbeforeunload w ∧
  microtasks w1 = microtasks w.
Proof.
  cbn zeta.
  destruct (confirm_promises props w) as (cell & Hp & Hps & Hr & Hu & Hq).
  destruct (confirm_promises props' (usePrompt.confirm provided props w).2)
    as (cell' & Hp' & _).
  rewrite Hp' Hp Hps Hr Hu Hq length_app /=.
  split_and!; try done.
  - by apply lookup_ge_None.
  - rewrite lookup_fresh. by eexists.
  - lia.
  - intros q Hq'%lookup_lt_is_Some. by rewrite lookup_app_l.
Qed.

Lemma filter_decisions_calls f :
  filter is_decision_event (calls f) = [].
Proof. by destruct f. Qed.

(** X10: the effect on the blocker running a second time for the same
    blocked transition, a dependency having changed while the dialog was
    displayed.  The second [confirm()] replaces the first; the dialog
    shows the texts of the second render; a click then gives the router
    exactly one decision, [proceed] on confirm and [reset] on cancel, and
    the promise of the first [confirm()] stays pending. *)
Theorem X10_blocker_effect_rerun (props props' : PromptProps) (target : string) (w : World) :
  usePrompt.isDirty_ props = true →
  usePrompt.isDirty_ props' = true →
  microtasks w = [] →
  let p := length (promises w) in
  let w1 := step w (RouterBlocks props target) in
  let w2 := step w1 (RouterBlocks props' target) in
  let yes := step w2 (UserClick confirmButton) in
  let no := step w2 (UserClick cancelButton) in
  title_label (ConfirmProvider.render w2) = Some (usePrompt.title_ props') ∧
  router w2 = mkRouter (location (router w)) (blocked target) ∧
  filter is_decision_event (since w yes) = [EvProceed] ∧
  router yes = mkRouter target unblocked ∧
  settled <$> promises yes !! p = Some None ∧
  settled <$> promises yes !! S p = Some (Some true) ∧
  filter is_decision_event (since w no) = [EvReset] ∧
  router no = mkRouter (location (router w)) unblocked ∧
  settled <$> promises no !! p = Some None ∧
  settled <$> promises no !! S p = Some (Some false) ∧
  subtitle_label (ConfirmProvider.render w2) = Some (usePrompt.subtitle_ props') ∧
  confirmButton_text (ConfirmProvider.render w2) = Some (usePrompt.confirmText_ props') ∧
  cancelButton_text (ConfirmProvider.render w2) = Some (usePrompt.cancelText_ props') ∧
  background (ConfirmProvider.render w2) = bgColor (colorMap (usePrompt.type_ props')) ∧
  icon (ConfirmProvider.render w2) = iconMap (usePrompt.type_ props').
Proof.
  intros Hd Hd' Hq. cbn zeta.
  rewrite (blocks_dirty _ _ _ Hd Hq).
  set (w1 := ConfirmProvider.show _ _).
  assert (microtasks w1 = []) as Hq1 by done.
  rewrite (blocks_dirty _ _ _ Hd' Hq1).
  set (w2 := ConfirmProvider.show _ _).
  set (ps := promises w ++ [mkCell None [BlockerDecision]]).
  assert (length ps = S (length (promises w))) as Hlen.
  { rewrite /ps length_app /=. lia. }
  assert (open w2 = true) as Ho by done.
  assert (confirm w2 = Some (usePrompt.request props' (length ps))) as Hc by done.
  assert (promises w2 = ps ++ [mkCell None [BlockerDecision]]) as Hp by done.
  assert (ps !! length (promises w) = Some (mkCell None [BlockerDecision])) as Hfirst.
  { apply lookup_fresh. }
  assert (∀ d, (ps ++ [d]) !! length (promises w) = Some (mkCell None [BlockerDecision])
                 ∧ (ps ++ [d]) !! S (length (promises w)) = Some d) as Hcells.
  { intros d. split.
    - rewrite lookup_app_l; [lia | done].
    - rewrite -Hlen. apply lookup_fresh. }
  rewrite /step /= !(click_guard_request _ props' w2 _ _ Ho Hc Hp) /= Hq /=.
  assert (∀ (answer : bool) (user : option ExternFn),
            since w
              (drain (toggle false (call_opt_extern user
                 (set_microtasks [(BlockerDecision, answer)]
                    (set_promises (ps ++ [mkCell (Some answer) []]) w2)))))
            = [EvShow (Some (usePrompt.request props (length (promises w))));
               EvShow (Some (usePrompt.request props' (length ps)))]
              ++ calls user ++ [decision (BlockerDecision, answer)]) as Hsince.
  { intros answer user. apply since_app.
    destruct user, answer; by rewrite /drain /= /proceed /reset /= -?app_assoc. }
  assert (∀ (answer : bool) (user : option ExternFn),
            promises
              (drain (toggle false (call_opt_extern user
                 (set_microtasks [(BlockerDecision, answer)]
                    (set_promises (ps ++ [mkCell (Some answer) []]) w2)))))
            = ps ++ [mkCell (Some answer) []]) as Hprom.
  { intros answer user. destruct (drain_frame
        (toggle false (call_opt_extern user
           (set_microtasks [(BlockerDecision, answer)]
              (set_promises (ps ++ [mkCell (Some answer) []]) w2)))))
      as (_ & _ & -> & _).
    by destruct user. }
  rewrite !Hsince !Hprom !filter_app !filter_decisions_calls /=.
  split_and!; try done.
  - by destruct (onConfirm (options props')).
  - by destruct (Hcells (mkCell (Some true) [])) as [-> _].
  - by destruct (Hcells (mkCell (Some true) [])) as [_ ->].
  - by destruct (onCancel (options props')).
  - by destruct (Hcells (mkCell (Some false) [])) as [-> _].
  - by destruct (Hcells (mkCell (Some false) [])) as [_ ->].
Qed.

Lemma X10_blocker_effect_rerun_witness :
  let first := mkProps (Some true) (mkOptions None (Some "one") None None None None None) in
  let second := mkProps (Some true) (mkOptions None (Some "two") None None (Some 5) None None) in
  let w2 := step (step (initial "/form") (RouterBlocks first "/about"))
                 (RouterBlocks second "/about") in
  filter is_decision_event (since (initial "/form") (step w2 (UserClick confirmButton)))
    = [EvProceed] ∧
  router (step w2 (UserClick confirmButton)) = mkRouter "/about" unblocked ∧
  router (step w2 (UserClick cancelButton)) = mkRouter "/form" unblocked.
Proof.
  cbn zeta.
  pose proof (X10_blocker_effect_rerun
                (mkProps (Some true) (mkOptions None (Some "one") None None None None None))
                (mkProps (Some true) (mkOptions None (Some "two") None None (Some 5) None None))
                "/about" (initial "/form") eq_refl eq_refl eq_refl)
    as (_ & _ & H1 & H2 & _ & _ & _ & H3 & _).
  split_and!; [exact H1 | exact H2 | exact H3].
Defined.

(** X11: what the dialog shows after a [show] depends on the request of
    that [show] alone: nothing of an earlier request, resolved or not, is
    left in it.  Resolving a request, either way, hides the dialog and
    changes nothing else of what is rendered. *)
Theorem X11_show_determines_dialog
    (r : Nullable (ConfirmOptions Callback)) (w w' : World) (ops : list Op) (here : string) :
  ConfirmProvider.render (ConfirmProvider.show r w)
    = ConfirmProvider.render (ConfirmProvider.show r w') ∧
  ConfirmProvider.render (run_ops (ops ++ [OpShow r]) w)
    = ConfirmProvider.render (ConfirmProvider.show r (initial here)) ∧
  ConfirmProvider.render (ConfirmProvider.onConfirm w)
    = Confirm (ConfirmProvider.dialog_props w) false ∧
  ConfirmProvider.render (ConfirmProvider.onCancel w)
    = Confirm (ConfirmProvider.dialog_props w) false.
Proof.
  split_and!.
  - done.
  - by rewrite run_ops_snoc.
  - rewrite /ConfirmProvider.render /ConfirmProvider.dialog_props /=.
    by rewrite call_opt_confirm.
  - rewrite /ConfirmProvider.render /ConfirmProvider.dialog_props /=.
    by rewrite call_opt_confirm.
Qed.

(** X12: what a render of [usePrompt] gives, by what is above the
    component.  [useBlocker] is called first: with no data router above,
    the hook throws the routing library's error, whether or not a
    ConfirmProvider is there.  Below a data router it throws the error of
    [useConfirm] when no ConfirmProvider is above, and renders, bound to
    the provider's [show], when one is.  In the application, where
    [main.tsx] puts the ConfirmProvider around [App] and [App] renders
    the RouterProvider, the hook renders in every page, under whatever
    layout; in a component outside the router, [App] itself for one, it
    throws the library's error although [useConfirm] succeeds there. *)
Theorem X12_usePrompt_render_scope
    (library_error : Error) (ancestors : list Component) (props : PromptProps)
    (inside around : list string) :
  let hook := usePrompt.mkHook (usePrompt.confirm provided props)
                               (usePrompt.blocker_effect provided props)
                               (usePrompt.unload_effect props)
                               usePrompt.unload_cleanup in
  (RouterProviderNode ∉ ancestors →
     usePrompt.render library_error ancestors props = inl library_error) ∧
  (RouterProviderNode ∈ ancestors → ConfirmProviderNode ∉ ancestors →
     usePrompt.render library_error ancestors props
       = inl (mkError "useConfirm must be used within a ConfirmProvider")) ∧
  (RouterProviderNode ∈ ancestors → ConfirmProviderNode ∈ ancestors →
     usePrompt.render library_error ancestors props = inr hook) ∧
  usePrompt.render library_error (page_ancestors inside around) props = inr hook ∧
  usePrompt.render library_error (app_ancestors around) props = inl library_error ∧
  useConfirm (app_ancestors around) = inr provided.
Proof.
  cbn zeta.
  assert (∀ l, RouterProviderNode ∉ l →
               usePrompt.render library_error l props = inl library_error) as Hnone.
  { intros l Hl. by rewrite /usePrompt.render /useBlocker bool_decide_false. }
  assert (∀ l, RouterProviderNode ∈ l → ConfirmProviderNode ∈ l →
               usePrompt.render library_error l props
                 = inr (usePrompt.mkHook (usePrompt.confirm provided props)
                                         (usePrompt.blocker_effect provided props)
                                         (usePrompt.unload_effect props)
                                         usePrompt.unload_cleanup)) as Hboth.
  { intros l Hr Hc.
    by rewrite /usePrompt.render /useBlocker bool_decide_true // /useConfirm
               (useContext_in _ Hc). }
  assert (ConfirmProviderNode ∈ app_ancestors around) as Hroot.
  { apply elem_of_app. right. by apply list_elem_of_singleton. }
  split_and!.
  - apply Hnone.
  - intros Hr Hc.
    by rewrite /usePrompt.render /useBlocker bool_decide_true // /useConfirm
               (useContext_notin _ Hc).
  - apply Hboth.
  - apply Hboth.
    + apply elem_of_app. right. by left.
    + apply elem_of_app. right. right. apply Hroot.
  - apply Hnone. rewrite /app_ancestors.
    intros [(name & [=] & _)%list_elem_of_fmap | [=]%list_elem_of_singleton]%elem_of_app.
  - by rewrite /useConfirm (useContext_in _ Hroot).
Qed.

(** ** Clicks *)

Lemma filter_callbacks_decisions (q : list (Reaction * bool)) :
  filter is_callback_event (decision <$> q) = [].
Proof. induction q as [|[r [|]] q IH]; by rewrite ?fmap_cons ?filter_cons /=. Qed.

Lemma step_click_calls c w :
  ∃ new, trace (step w (UserClick c)) = trace w ++ new ∧
         length (filter is_callback_event new) ≤ (if open w then 1 else 0) ∧
         (open w = true → open (step w (UserClick c)) = false) ∧
         (open w = false → open (step w (UserClick c)) = false) ∧
         confirm (step w (UserClick c)) = confirm w.
Proof.
  rewrite /step /=.
  destruct (drain_frame (click c w)) as (-> & -> & _ & _ & _ & ->).
  destruct (open w) eqn:Ho.
  - rewrite (click_open _ _ Ho).
    exists (calls (match c with
                   | confirmButton => confirm w ≫= onConfirm
                   | _ => confirm w ≫= onCancel
                   end ≫= extern_of_callback)
            ++ (decision <$> microtasks (match c with
                                         | confirmButton => ConfirmProvider.onConfirm w
                                         | _ => ConfirmProvider.onCancel w
                                         end))).
    rewrite filter_app filter_callbacks_decisions app_nil_r.
    destruct c; rewrite /ConfirmProvider.onConfirm /ConfirmProvider.onCancel /=
                        call_opt_trace call_opt_confirm app_assoc;
      (split_and!; try done);
      match goal with |- context [calls ?f] => destruct f end; simpl; lia.
  - rewrite (click_hidden _ _ Ho). exists (decision <$> microtasks w).
    rewrite filter_callbacks_decisions. by split_and!.
Qed.

Lemma hidden_clicks_call_nothing cs w :
  open w = false →
  ∃ new, trace (run (UserClick <$> cs) w) = trace w ++ new ∧
         filter is_callback_event new = [] ∧
         open (run (UserClick <$> cs) w) = false ∧
         confirm (run (UserClick <$> cs) w) = confirm w.
Proof.
  revert w. induction cs as [|c cs IH]; intros w Ho.
  { exists []. by rewrite app_nil_r. }
  destruct (step_click_calls c w) as (n1 & Ht1 & Hn1 & _ & Ho1 & Hc1).
  destruct (IH (step w (UserClick c)) (Ho1 Ho)) as (n2 & Ht2 & Hn2 & Ho2 & Hc2).
  exists (n1 ++ n2). rewrite fmap_cons /= Ht2 Ht1 app_assoc filter_app Hn2 app_nil_r.
  rewrite Ho in Hn1. split_and!; try done.
  - apply length_zero_iff_nil. lia.
  - by rewrite Hc2.
Qed.

(** X13: however often and on whichever controls the user clicks, with no
    [show] in between, at most one function of a consumer is called: the
    first click on a displayed dialog calls at most one callback of the
    stored request and hides the dialog, and clicks on a hidden dialog
    call nothing.  The stored request stays in the slot. *)
Theorem X13_clicks_call_at_most_once (w : World) (cs : list Control) :
  let w' := run (UserClick <$> cs) w in
  length (filter is_callback_event (since w w')) ≤ 1 ∧
  (cs ≠ [] → open w' = false) ∧
  (open w = false → filter is_callback_event (since w w') = []) ∧
  confirm w' = confirm w.
Proof.
  cbn zeta. destruct cs as [|c cs].
  { rewrite /since /= drop_all. split_and!; (done || simpl; lia). }
  destruct (step_click_calls c w) as (n1 & Ht1 & Hn1 & Ho1 & Ho1' & Hc1).
  assert (open (step w (UserClick c)) = false) as Hclosed.
  { destruct (open w); auto. }
  destruct (hidden_clicks_call_nothing cs (step w (UserClick c)) Hclosed)
    as (n2 & Ht2 & Hn2 & Ho2 & Hc2).
  assert (trace (run (UserClick <$> c :: cs) w) = trace w ++ (n1 ++ n2)) as Ht.
  { by rewrite fmap_cons /= Ht2 Ht1 app_assoc. }
  rewrite (since_app _ _ _ Ht) filter_app Hn2 app_nil_r.
  split_and!.
  - destruct (open w); lia.
  - done.
  - intros Ho. rewrite Ho in Hn1. apply length_zero_iff_nil. lia.
  - by rewrite fmap_cons /= Hc2.
Qed.

(** ** The contact page and navigation *)

Lemma page_clean_pristine evs :
  ContactPage.isDirty (ContactPage.run evs ContactPage.mounted) = false →
  ContactPage.state (ContactPage.run evs ContactPage.mounted) = initialState.
Proof.
  induction evs as [|ev evs IH] using rev_ind; [done|].
  rewrite page_run_snoc. destruct ev as [i v|]; simpl; [done|].
  by destruct (submit_disabled _).
Qed.

(** X14: navigation away from the contact page.  When the router reports
    a blocked transition, a page whose dirty flag is set gets the dialog
    "You have unsaved changes!" and the transition stays blocked, with no
    decision given to the router; a page whose flag is clear lets the
    transition proceed at once, without a dialog.  A form that differs
    from the initial one always has the flag set, so it is never left
    without the dialog. *)
Theorem X14_contact_page_navigation
    (evs : list ContactPage.Event) (target : string) (w : World) :
  microtasks w = [] →
  let pg := ContactPage.run evs ContactPage.mounted in
  let w1 := step w (RouterBlocks (ContactPage.prompt_props pg) target) in
  let held := open w1 = true ∧
              title_label (ConfirmProvider.render w1) = Some "You have unsaved changes!" ∧
              router w1 = mkRouter (location (router w)) (blocked target) ∧
              filter is_decision_event (since w w1) = [] in
  (ContactPage.isDirty pg = true → held) ∧
  (ContactPage.isDirty pg = false →
     router w1 = mkRouter target unblocked ∧ open w1 = open w ∧ since w w1 = [EvProceed]) ∧
  (ContactPage.state pg ≠ initialState → held).
Proof.
  intros Hq. cbn zeta.
  assert (ContactPage.isDirty (ContactPage.run evs ContactPage.mounted) = true →
          open (step w (RouterBlocks (ContactPage.prompt_props
                          (ContactPage.run evs ContactPage.mounted)) target)) = true ∧
          title_label (ConfirmProvider.render
            (step w (RouterBlocks (ContactPage.prompt_props
                       (ContactPage.run evs ContactPage.mounted)) target)))
            = Some "You have unsaved changes!" ∧
          router (step w (RouterBlocks (ContactPage.prompt_props
                            (ContactPage.run evs ContactPage.mounted)) target))
            = mkRouter (location (router w)) (blocked target) ∧
          filter is_decision_event
            (since w (step w (RouterBlocks (ContactPage.prompt_props
                                (ContactPage.run evs ContactPage.mounted)) target))) = [])
    as Hheld.
  { intros Hd.
    assert (usePrompt.isDirty_ (ContactPage.prompt_props
              (ContactPage.run evs ContactPage.mounted)) = true) as Hd'.
    { by rewrite /usePrompt.isDirty_ /= Hd. }
    rewrite (blocks_dirty _ _ _ Hd' Hq). split_and!; try done.
    by rewrite /since /= drop_app_length. }
  split_and!.
  - done.
  - intros Hd.
    assert (usePrompt.isDirty_ (ContactPage.prompt_props
              (ContactPage.run evs ContactPage.mounted)) = false) as Hd'.
    { by rewrite /usePrompt.isDirty_ /= Hd. }
    rewrite (blocks_clean _ _ _ Hd' Hq) /proceed /=. split_and!; try done.
    by rewrite /since /= drop_app_length.
  - intros Hne. apply Hheld.
    destruct (ContactPage.isDirty _) eqn:E; [done|].
    by apply page_clean_pristine in E.
Qed.

Lemma X14_contact_page_navigation_witness :
  let w1 := step (initial "/contact")
              (RouterBlocks (ContactPage.prompt_props
                               (ContactPage.run [ContactPage.Change name_input "Ada"]
                                  ContactPage.mounted)) "/about") in
  open w1 = true ∧ router w1 = mkRouter "/contact" (blocked "/about").
Proof.
  cbn zeta.
  pose proof (X14_contact_page_navigation [ContactPage.Change name_input "Ada"] "/about"
                (initial "/contact") eq_refl) as (Hheld & _).
  destruct (Hheld eq_refl) as (H1 & _ & H2 & _).
  split; [exact H1 | exact H2].
Defined.
